(** * vxsdr_examples: looped transmit from a file

    A shallow embedding of the C++ sources of the [vxsdr_tx_loop_file]
    example program:

    - [interpret_bracketed_list], [set_common_options],
      [set_network_options] and [set_tx_1ch_options]
      (host_radio_options.cpp),
    - [read_cplx_16], [write_cplx_16] and [format_time] (utility.cpp),
    - [main] (vxsdr_tx_loop_file.cpp),

    followed by the properties of the program that its specification
    states, and by further properties of the same functions.

    Conventions.
    - A C++ [double] is an IEEE 754 binary64 value, modelled by
      [spec_float] with precision 53 and maximal exponent 1024.
    - A [std::chrono] time point or duration is modelled by its tick
      count, an integer number of nanoseconds (the period of
      [std::chrono::system_clock] and of [vxsdr::duration]); the tick
      count is a mathematical integer, and [ceil_seconds_fits] bounds
      the clock readings for which the 64-bit representation is not
      exceeded.
    - [size_t] is a 64-bit unsigned integer and [long long] a 64-bit
      signed integer; conversions between them are written out.
    - The radio is an external collaborator: every answer it gives is
      an input of the run (record [device]), and every call made to it
      is recorded, with its arguments, in the trace of the run.
    - The samples of a vector lie in memory as in a waveform file:
      four bytes each, the real part before the imaginary part, the low
      byte of each first.  [read_cplx_16] and [write_cplx_16] take the
      address of the first element of the vector, which the language
      defines for a vector that is not empty only
      ([takes_front_of_empty]).
    - [std::put_time] and [localtime] depend on the time zone of the
      host; the text they give is a parameter of [format_time].
    - A file that can be opened is a regular file whose size is known
      and whose samples fit in memory; [read_cplx_16] of a directory,
      where [tellg] fails and [resize] throws, is outside the model.
    - The arithmetic of [main] on tick counts is that of mathematical
      integers; the properties that depend on a sum or a product being
      a 64-bit tick count say so ([sleep_fits]).
    - The texts of the exceptions are those of libstdc++; that of [at]
      depends on the container and is a parameter ([range_check_what]).
    - A run starts from the parsed options ([desc.parse] and the
      option tables are not modelled), and the transport settings
      handed to the constructor of [vxsdr] are left out, as are
      exceptions thrown by the radio library itself. *)

From Corelib Require Import SpecFloat.
From Stdlib Require Import ZArith NArith List String Ascii Bool Lia.
From Equations Require Import Equations.
Import ListNotations.

Local Open Scope Z_scope.

(** ** Binary64 arithmetic *)

Module Double.

Definition double := spec_float.

Definition prec : Z := 53.
Definition emax : Z := 1024.

Definition of_Z (n : Z) : double := binary_normalize prec emax n 0 false.
Definition of_N (n : N) : double := of_Z (Z.of_N n).

Definition div (x y : double) : double := SFdiv prec emax x y.
Definition mul (x y : double) : double := SFmul prec emax x y.

Definition ltb (x y : double) : bool := SFltb x y.
Definition leb (x y : double) : bool := SFleb x y.
Definition eqb (x y : double) : bool := SFeqb x y.
Definition gtb (x y : double) : bool := SFltb y x.

Definition zero : double := S754_zero false.

(** Round half away from zero of the dyadic number [m * 2^e]. *)
Definition round_half_away (m : positive) (e : Z) : Z :=
  match e with
  | Zneg p => (2 * Zpos m + 2 ^ Zpos p) / (2 * 2 ^ Zpos p)
  | _ => Zpos m * 2 ^ e
  end.

(** The mathematical value of [std::round]: the nearest integer, ties
    away from zero; [None] for infinities and NaN. *)
Definition round (x : double) : option Z :=
  match x with
  | S754_zero _ => Some 0
  | S754_finite s m e =>
      Some (if s then - round_half_away m e else round_half_away m e)
  | _ => None
  end.

Definition llong_min : Z := - 2 ^ 63.
Definition llong_max : Z := 2 ^ 63 - 1.

(** [std::llround]: the rounded value when it is representable as a
    [long long]; otherwise the result is unspecified by the language
    and is whatever value [invalid] the C library returns. *)
Definition llround (invalid : Z) (x : double) : Z :=
  match round x with
  | Some r => if (llong_min <=? r) && (r <=? llong_max) then r else invalid
  | None => invalid
  end.

(** Conversion of a [long long] to [size_t]. *)
Definition to_size_t (n : Z) : N := Z.to_N (n mod 2 ^ 64).

End Double.

Import Double.

(** ** Time points and durations *)

Module Chrono.

(** Tick counts of [std::chrono::system_clock] (nanoseconds). *)
Definition time_point := Z.
Definition duration := Z.

Definition ns_per_s : Z := 1000000000.
Definition ns_per_ms : Z := 1000000.
Definition ms_per_s : Z := 1000.

(** [duration_cast] to a coarser unit truncates toward zero. *)
Definition duration_cast_s (t : Z) : Z := Z.quot t ns_per_s.
Definition duration_cast_ms (t : Z) : Z := Z.quot t ns_per_ms.

(** [std::chrono::floor<seconds>]: the truncated count, lowered by one
    when truncation went up.  The result counts seconds. *)
Definition floor_seconds (t : time_point) : Z :=
  let s := duration_cast_s t in
  if t <? s * ns_per_s then s - 1 else s.

(** [std::chrono::ceil<seconds>]: the truncated count, raised by one
    when truncation went down.  The result counts seconds. *)
Definition ceil_seconds (t : time_point) : Z :=
  let s := duration_cast_s t in
  if s * ns_per_s <? t then s + 1 else s.

(** Implicit conversions to a finer unit. *)
Definition s_to_ns (s : Z) : Z := s * ns_per_s.
Definition s_to_ms (s : Z) : Z := s * ms_per_s.
Definition ms_to_ns (ms : Z) : Z := ms * ns_per_ms.

Definition int64_min : Z := - 2 ^ 63.
Definition int64_max : Z := 2 ^ 63 - 1.

End Chrono.

Import Chrono.

(** ** Traces and outcomes *)

(** Samples on the wire and in waveform files: 16-bit signed real and
    imaginary parts. *)
Definition cplx16 : Type := Z * Z.

Inductive stream := cout | cerr.

(** The texts the program prints; each constructor stands for one output
    statement of the source and carries the values inserted in it. *)
Inductive message :=
| Bracketed_cannot_interpret (s : string)
| Bracketed_no_matching_brackets (s : string)
| Error_set_time_now
| Error_set_time_next_pps
| Unknown_time_source (s : string)
| Error_set_max_payload_bytes
| Error_set_tx_rate
| Rate_overrides_tx_rate
| Please_specify_rate
| Error_set_tx_freq
| Freq_overrides_tx_freq
| Please_specify_freq
| Error_set_tx_port
| Error_set_tx_gain
| Tx_iq_bias_requires_2
| Error_set_tx_iq_bias
| Tx_iq_corr_requires_4
| Error_set_tx_iq_corr
| Started
| Duration_must_be_positive
| Pri_must_be_nonnegative
| Unable_to_read_file (name : string)
| Loaded_file (name : string)
| File_contains (n_samples : N)
| Waveform_longer_than_pri (waveform_duration pri_sec : double)
| Unable_to_get_buffer_info
| Will_not_fit (available needed : N)
| Granularity_mismatch
| Radio_time (t : time_point)
| Unable_to_get_radio_time
| Using_frequency (f : double)
| Using_rate (r : double)
| Using_tx_gain (g : double)
| Using_pri (p : double)
| Using_duration (d : double)
| Start_time (t : time_point)
| Error_sending_waveform
| Tx_loop_failed
| Transmit_complete
| Exception_caught (what : string).

(** Calls on the radio object, with their arguments. *)
Inductive call :=
| New_radio
| Set_time_now (t : time_point)
| Set_time_next_pps (t : time_point)
| Set_max_payload_bytes (n : N)
| Set_tx_rate (r : double)
| Set_tx_freq (f : double)
| Get_tx_num_ports
| Get_tx_port_name (n : N)
| Set_tx_port (n : N)
| Set_tx_gain (g : double)
| Set_tx_iq_bias (y : list double)
| Set_tx_iq_corr (y : list double)
| Get_tx_rate
| Get_tx_freq
| Get_tx_gain
| Get_buffer_info
| Hello
| Compute_sample_granularity (wire_format : N)
| Get_time_now
| Put_tx_data (wf : list cplx16)
| Tx_loop (t_start : time_point) (n_samples : N) (pri : duration) (n_pulses : N).

Inductive event :=
| Print (s : stream) (m : message)
| Call (c : call)
| Sleep_until (t : time_point).

Definition trace := list event.

(** C++ exceptions that can cross a function boundary in this program;
    all are derived from [std::exception].  An [Out_of_range] records
    the library function that throws it. *)
Inductive exn :=
| Out_of_range (what : string)
| Bad_optional_access.

Definition what (e : exn) : string :=
  match e with
  | Out_of_range w => w
  | Bad_optional_access => "bad optional access"
  end.

(** How a piece of code ends: it returns a value, calls [exit], throws,
    or runs into behaviour the language leaves undefined. *)
Inductive outcome (A : Type) :=
| Returned (a : A)
| Exited (status : Z)
| Thrown (e : exn)
| Undefined.

Arguments Returned {A} a.
Arguments Exited {A} status.
Arguments Thrown {A} e.
Arguments Undefined {A}.

(** A computation: the events it performs, in order, and how it ends. *)
Definition prog (A : Type) : Type := trace * outcome A.

Definition pure {A} (a : A) : prog A := ([], Returned a).

Definition bind {A B} (m : prog A) (f : A -> prog B) : prog B :=
  match m with
  | (t, Returned a) => let (t', o) := f a in (t ++ t', o)
  | (t, Exited s) => (t, Exited s)
  | (t, Thrown e) => (t, Thrown e)
  | (t, Undefined) => (t, Undefined)
  end.

Definition emit (e : event) : prog unit := ([e], Returned tt).
Definition print (s : stream) (m : message) : prog unit := emit (Print s m).
Definition exit {A} (status : Z) : prog A := ([], Exited status).
Definition throw {A} (e : exn) : prog A := ([], Thrown e).
Definition undefined {A} : prog A := ([], Undefined).

(** A call on the radio whose answer is [r]. *)
Definition ask {A} (c : call) (r : A) : prog A := ([Call c], Returned r).

Declare Scope prog_scope.
Delimit Scope prog_scope with prog.
Notation "x <- m ;; k" := (bind m (fun x => k))
  (at level 61, m at next level, right associativity) : prog_scope.
Notation "m ;; k" := (bind m (fun _ => k))
  (at level 61, right associativity) : prog_scope.
Notation "'when' b 'then' m" := (if b then m else pure tt)
  (at level 60, b at level 9) : prog_scope.

Local Open Scope prog_scope.

(** ** The C++ library functions the parser relies on *)

Definition ascii_eqb (a b : ascii) : bool := Ascii.eqb a b.

(** [std::tolower] in the "C" locale. *)
Definition tolower (c : ascii) : ascii :=
  let n := N_of_ascii c in
  if ((65 <=? n) && (n <=? 90))%N then ascii_of_N (n + 32) else c.

Fixpoint string_tolower (s : string) : string :=
  match s with
  | EmptyString => EmptyString
  | String c s' => String (tolower c) (string_tolower s')
  end.

(** [s.c_str()] read back as a C string: the characters before the first
    NUL. *)
Fixpoint c_str (s : string) : string :=
  match s with
  | EmptyString => EmptyString
  | String c s' => if ascii_eqb c Ascii.zero then EmptyString else String c (c_str s')
  end.

(** The three ways a call of [std::stod] ends. *)
Inductive stod_result :=
| Stod_value (x : double)
| Stod_invalid_argument
| Stod_out_of_range.

(** [std::stod] for the literals of [strtod] in the "C" locale: optional
    white space and sign, then a decimal or hexadecimal floating
    literal, [inf], [infinity] or [nan]; characters after the longest
    literal are ignored.  [std::invalid_argument] when there is no
    literal, [std::out_of_range] when [strtod] reports [ERANGE]:
    for an overflow, and for an underflow as glibc finds it, which is
    a value that is still below the least normal number when rounded
    to 53 bits and that loses bits when it is made subnormal. *)
Module Stod.

Definition isspace (c : ascii) : bool :=
  let n := N_of_ascii c in
  ((9 <=? n) && (n <=? 13) || (n =? 32))%N.

Fixpoint skip_space (s : string) : string :=
  match s with
  | String c s' => if isspace c then skip_space s' else s
  | EmptyString => s
  end.

Definition digit_value (base : Z) (c : ascii) : option Z :=
  let n := Z.of_N (N_of_ascii c) in
  let v :=
    if (48 <=? n) && (n <=? 57) then Some (n - 48)
    else if (97 <=? n) && (n <=? 102) then Some (n - 87)
    else if (65 <=? n) && (n <=? 70) then Some (n - 55)
    else None in
  match v with
  | Some d => if d <? base then Some d else None
  | None => None
  end.

(** Reads the digits at the head of [s]: the number read so far, how
    many digits were read, and the rest of the string. *)
Fixpoint digits (base : Z) (s : string) (acc count : Z) : Z * Z * string :=
  match s with
  | String c s' =>
      match digit_value base c with
      | Some d => digits base s' (acc * base + d) (count + 1)
      | None => (acc, count, s)
      end
  | EmptyString => (acc, count, s)
  end.

Definition sign (s : string) : bool * string :=
  match s with
  | String "-" s' => (true, s')
  | String "+" s' => (false, s')
  | _ => (false, s)
  end.

(** The exponent part introduced by [mark] (in either case), when at
    least one digit follows; zero otherwise. *)
Definition exponent (mark : ascii) (s : string) : Z :=
  match s with
  | String c s' =>
      if ascii_eqb (tolower c) mark then
        let (neg, s'') := sign s' in
        let '(e, n, _) := digits 10 s'' 0 0 in
        if 0 <? n then (if neg then - e else e) else 0
      else 0
  | EmptyString => 0
  end.

(** Mantissa digits with an optional point: the integer the digits
    spell, the number of digits after the point, the number of digits
    in all, and the rest. *)
Definition mantissa (base : Z) (s : string) : Z * Z * Z * string :=
  let '(m1, n1, r1) := digits base s 0 0 in
  match r1 with
  | String "." r1' =>
      let '(m2, n2, r2) := digits base r1' m1 0 in
      (m2, n2, n1 + n2, r2)
  | _ => (m1, 0, n1, r1)
  end.

(** The value [num / den * 2^e2] scaled by [2^-exp]: its integer
    part, and the remainder and the divisor of the division that gives
    it. *)
Definition scaled (num den e2 exp : Z) : Z * Z * Z :=
  let n := if 0 <=? e2 - exp then num * 2 ^ (e2 - exp) else num in
  let d := if 0 <=? e2 - exp then den else den * 2 ^ (exp - e2) in
  (n / d, n mod d, d).

(** Whether [strtod] reports an underflow for the literal of value
    [num / den * 2^e2] (with [0 < num] and [0 < den]).  [m] holds the 53
    leading bits of the value, [round_bit] is the next bit and
    [more_bits] tells whether a bit after it is set.  A value whose
    leading bit is below [2^-1022] is shifted to the subnormal format;
    it is tiny unless rounding [m] to nearest gives [2^-1022], and the
    underflow is reported when it is tiny and the shift loses a bit.
    As in glibc up to version 2.40, [round_bit] is not counted among
    the bits that the shift loses. *)
Definition underflows (num den e2 : Z) : bool :=
  let exp1 := e2 + Z.log2 num - Z.log2 den - 52 in
  let '(m1, _, _) := scaled num den e2 exp1 in
  let exp := if m1 <? 2 ^ 52 then exp1 - 1 else exp1 in
  let '(m, r, d) := scaled num den e2 exp in
  let round_bit := d <=? 2 * r in
  let more_bits := negb (r =? 0) && negb (2 * r =? d) in
  if - 1074 <=? exp then false
  else
    let shift := - 1074 - exp in
    if 53 <? shift then true
    else
      let half_bit := Z.testbit m (shift - 1) in
      let more_bits' := negb (m mod 2 ^ (shift - 1) =? 0) || more_bits in
      let is_tiny :=
        negb ((shift =? 1) && round_bit && (more_bits || Z.odd m)
              && (m + 1 =? 2 ^ 53)) in
      is_tiny && (half_bit || more_bits').

(** The literal of value [num / den * 2^e2] (with [0 <= num] and
    [0 < den]) rounded to nearest, ties to even. *)
Definition convert (neg : bool) (num den e2 : Z) : stod_result :=
  if num =? 0 then Stod_value (S754_zero neg)
  else
    let '(q, e, l) := SFdiv_core_binary prec emax num e2 den 0 in
    let x := binary_round_aux prec emax neg q e l in
    match x with
    | S754_infinity _ => Stod_out_of_range
    | _ => if underflows num den e2 then Stod_out_of_range else Stod_value x
    end.

Definition decimal (neg : bool) (s : string) : stod_result :=
  let '(m, nfrac, n, r) := mantissa 10 s in
  if n =? 0 then Stod_invalid_argument
  else
    let e := exponent "e" r - nfrac in
    if 0 <=? e then convert neg (m * 10 ^ e) 1 0
    else convert neg m (10 ^ (- e)) 0.

Definition hexadecimal (neg : bool) (s : string) : option stod_result :=
  match s with
  | String "0" (String x s') =>
      if ascii_eqb (tolower x) "x" then
        let '(m, nfrac, n, r) := mantissa 16 s' in
        if n =? 0 then None
        else Some (convert neg m 1 (exponent "p" r - 4 * nfrac))
      else None
  | _ => None
  end.

Fixpoint prefix_ci (p s : string) : bool :=
  match p, s with
  | EmptyString, _ => true
  | String a p', String b s' => ascii_eqb a (tolower b) && prefix_ci p' s'
  | _, _ => false
  end.

Definition stod (str : string) : stod_result :=
  let (neg, s) := sign (skip_space str) in
  if prefix_ci "inf" s then Stod_value (S754_infinity neg)
  else if prefix_ci "nan" s then Stod_value S754_nan
  else
    match hexadecimal neg s with
    | Some r => r
    | None => decimal neg s
    end.

End Stod.

(** What the program takes from the C++ implementation it is built with. *)
Record platform := {
  (** [std::stod] *)
  stod : string -> stod_result;
  (** what [std::llround] returns for an argument whose rounded value is
      not a [long long] *)
  llround_invalid : Z;
  (** [sizeof(vxsdr::wire_sample)] *)
  sizeof_wire_sample : positive;
  (** the text of the [std::out_of_range] that [at] throws for an index
      and the size of the container *)
  range_check_what : nat -> nat -> string
}.

(** [std::getline(iss, number, delim)] on the unread part [iss] of a
    string stream.  [read_until] extracts characters up to the delimiter,
    which is consumed and not stored, or up to the end. *)
Fixpoint read_until (iss : string) (delim : ascii) : string * string :=
  match iss with
  | EmptyString => (EmptyString, EmptyString)
  | String c iss' =>
      if ascii_eqb c delim then (EmptyString, iss')
      else let (number, rest) := read_until iss' delim in (String c number, rest)
  end.

(** The call fails ([None]) when nothing is left to extract; otherwise it
    gives the line read and the part left unread. *)
Definition getline (iss : string) (delim : ascii) : option (string * string) :=
  match iss with
  | EmptyString => None
  | _ => Some (read_until iss delim)
  end.

Lemma read_until_length iss delim :
  (String.length (snd (read_until iss delim)) <= String.length iss)%nat.
Proof.
  induction iss as [|c iss IH]; simpl; [lia|].
  destruct (ascii_eqb c delim); simpl; [lia|].
  destruct (read_until iss delim); simpl in *; lia.
Qed.

Lemma getline_length iss delim number rest :
  getline iss delim = Some (number, rest) ->
  (String.length rest < String.length iss)%nat.
Proof.
  destruct iss as [|c iss]; simpl; [discriminate|].
  destruct (ascii_eqb c delim).
  - intros [= _ <-]. lia.
  - pose proof (read_until_length iss delim) as H.
    destruct (read_until iss delim); simpl in *.
    intros [= _ <-]. lia.
Qed.

Definition inspect {A} (a : A) : {b : A | a = b} := exist _ a eq_refl.

(** ** host_radio_options.cpp *)

Definition left_brackets : string := "[({".
Definition right_brackets : string := "])}".

Definition option_ascii_eqb (a b : option ascii) : bool :=
  match a, b with
  | Some x, Some y => ascii_eqb x y
  | None, None => true
  | _, _ => false
  end.

(** The search loop of [interpret_bracketed_list] over the indices [idx]
    still to visit: the first index whose bracket pair encloses [lst],
    or [left_brackets.size()]. *)
Fixpoint find_bracket (idx : list nat) (lst : string) : nat :=
  match idx with
  | [] => String.length left_brackets
  | i :: idx' =>
      if option_ascii_eqb (String.get 0 lst) (String.get i left_brackets)
         && option_ascii_eqb (String.get (String.length lst - 1) lst)
                             (String.get i right_brackets)
      then i
      else find_bracket idx' lst
  end.

(** [vm]: the options after parsing.  A field is [None] when
    [vm.count(name)] is zero.  [duration] and [pri] have default values
    and [tx_waveform_file] is required, so they are always present. *)
Record parsed_options := {
  vm_time_source : option string;
  vm_payload_size : option N;
  vm_rate : option double;
  vm_tx_rate : option double;
  vm_freq : option double;
  vm_tx_freq : option double;
  vm_tx_ant : option string;
  vm_tx_gain : option double;
  vm_tx_iq_bias : option string;
  vm_tx_iq_corr : option string;
  vm_duration : double;
  vm_pri : double;
  vm_tx_waveform_file : string
}.

(** The host the program runs on: the reading of
    [std::chrono::system_clock::now()] and the contents of the files
    that can be opened. *)
Record host := {
  system_clock_now : time_point;
  files : string -> option (list Byte.byte)
}.

(** The answers of the radio, one field per operation of [vxsdr].  An
    operation called at two places of the program answers each call
    separately: the natural number is the rank of the call. *)
Record device := {
  set_time_now : time_point -> bool;
  set_time_next_pps : time_point -> bool;
  set_max_payload_bytes : N -> bool;
  set_tx_rate : double -> bool;
  set_tx_freq : double -> bool;
  get_tx_num_ports : N -> option N;
  get_tx_port_name : N -> option string;
  set_tx_port : N -> bool;
  set_tx_gain : double -> bool;
  set_tx_iq_bias : list double -> bool;
  set_tx_iq_corr : list double -> bool;
  get_tx_rate : nat -> option double;
  get_tx_freq : option double;
  get_tx_gain : option double;
  get_buffer_info : option (list N);
  hello : option (list N);
  compute_sample_granularity : N -> N;
  get_time_now : nat -> option time_point;
  put_tx_data : list cplx16 -> N;
  tx_loop : time_point -> N -> duration -> N -> bool
}.

Definition value_or {A} (o : option A) (d : A) : A :=
  match o with
  | Some a => a
  | None => d
  end.

(** [unsigned] is 32 bits wide. *)
Definition unsigned_max : N := 4294967295.
Definition to_unsigned (n : N) : N := (n mod 4294967296)%N.

(** Ports left to visit by a search that has reached port [n]. *)
Definition ports_left (n : N) : N := (unsigned_max - n)%N.
Arguments ports_left : simpl never.

Lemma ports_left_step n num_ports :
  (n <? to_unsigned num_ports)%N = true ->
  (ports_left (n + 1) < ports_left n)%N.
Proof.
  intros Hlt. apply N.ltb_lt in Hlt.
  assert (to_unsigned num_ports < 4294967296)%N
    by (apply N.mod_lt; discriminate).
  unfold ports_left, unsigned_max. lia.
Qed.

(** The order on [N] is well founded; the proof is wrapped so that
    functions defined by recursion on it still evaluate. *)
Definition N_lt_wf : WellFounded N.lt := Acc_intro_generator 64 N.lt_wf_0.
#[local] Opaque N_lt_wf.
#[local] Existing Instance N_lt_wf.

Definition max_host_clock_error_ms : Z := 200.

Section HostRadioOptions.

Variable pl : platform.

(** The [while (std::getline(iss, number, delim))] loop. *)
Equations? parse_numbers (delim : ascii) (iss : string) (ret : list double)
  : prog (list double) by wf (String.length iss) lt :=
  parse_numbers delim iss ret with inspect (getline iss delim) := {
    | exist _ None _ := pure ret
    | exist _ (Some (number, rest)) Hget with stod pl (c_str number) := {
        | Stod_value x := parse_numbers delim rest (ret ++ [x])
        | Stod_invalid_argument :=
            print cerr (Bracketed_cannot_interpret number) ;; exit 1
        | Stod_out_of_range := throw (Out_of_range "stod") } }.
Proof. eapply getline_length; eassumption. Qed.

Definition interpret_bracketed_list (lst : string) (delim : ascii)
  : prog (list double) :=
  if (String.length lst <? 2)%nat then
    print cerr (Bracketed_cannot_interpret lst) ;; exit 1
  else
    let i_bracket :=
      find_bracket (seq 0 (String.length left_brackets)) lst in
    if (i_bracket =? String.length left_brackets)%nat then
      print cerr (Bracketed_no_matching_brackets lst) ;; exit 1
    else
      parse_numbers delim
        (String.substring 1 (String.length lst - 2) lst) [].

Variable vm : parsed_options.
Variable h : host.
Variable radio : device.

Definition set_common_options : prog Z :=
  match vm_time_source vm with
  | Some ts =>
      let ts_str := string_tolower ts in
      if String.eqb ts_str "host" then
        let t := system_clock_now h in
        ok <- ask (Set_time_now t) (set_time_now radio t) ;;
        when (negb ok) then print cerr Error_set_time_now
      else if String.eqb ts_str "pps" then
        let t_now := system_clock_now h in
        let msecs := duration_cast_ms t_now - s_to_ms (floor_seconds t_now) in
        let t_set :=
          if msecs <? 1000 - max_host_clock_error_ms then
            s_to_ns (ceil_seconds t_now)
          else
            s_to_ns (ceil_seconds t_now + 1) in
        emit (Sleep_until (t_set - ms_to_ns max_host_clock_error_ms)) ;;
        ok <- ask (Set_time_next_pps t_set) (set_time_next_pps radio t_set) ;;
        when (negb ok) then print cerr Error_set_time_next_pps
      else
        print cerr (Unknown_time_source ts) ;; exit 1
  | None => pure tt
  end ;;
  pure 0.

Definition set_network_options : prog Z :=
  match vm_payload_size vm with
  | Some n =>
      ok <- ask (Set_max_payload_bytes n) (set_max_payload_bytes radio n) ;;
      when (negb ok) then print cerr Error_set_max_payload_bytes
  | None => pure tt
  end ;;
  pure 0.

(** The port search of [set_tx_1ch_options], from port [n] on; the
    result is [port_set].  The loop test asks the radio for the number
    of ports each time round. *)
Equations? find_tx_port (tx_ant : string) (n : N) : prog bool
  by wf (ports_left n) N.lt :=
  find_tx_port tx_ant n
    with inspect (to_unsigned (value_or (get_tx_num_ports radio n) unsigned_max)) := {
    | exist _ num_ports Hnum with inspect (n <? num_ports)%N := {
        | exist _ false _ := emit (Call Get_tx_num_ports) ;; pure false
        | exist _ true Hlt :=
            emit (Call Get_tx_num_ports) ;;
            name <- ask (Get_tx_port_name n) (get_tx_port_name radio n) ;;
            if String.eqb (value_or name EmptyString) tx_ant then
              ok <- ask (Set_tx_port n) (set_tx_port radio n) ;;
              if ok then pure true else find_tx_port tx_ant (n + 1)
            else find_tx_port tx_ant (n + 1) } }.
Proof. all: eapply ports_left_step; eassumption. Qed.

Definition set_tx_1ch_options : prog Z :=
  match vm_rate vm, vm_tx_rate vm with
  | Some rate, tx_rate =>
      ok <- ask (Set_tx_rate rate) (set_tx_rate radio rate) ;;
      when (negb ok) then print cerr Error_set_tx_rate ;;
      match tx_rate with
      | Some _ => print cout Rate_overrides_tx_rate
      | None => pure tt
      end
  | None, Some tx_rate =>
      ok <- ask (Set_tx_rate tx_rate) (set_tx_rate radio tx_rate) ;;
      when (negb ok) then print cerr Error_set_tx_rate
  | None, None => print cerr Please_specify_rate ;; exit 1
  end ;;
  match vm_freq vm, vm_tx_freq vm with
  | Some freq, tx_freq =>
      ok <- ask (Set_tx_freq freq) (set_tx_freq radio freq) ;;
      when (negb ok) then print cerr Error_set_tx_freq ;;
      match tx_freq with
      | Some _ => print cout Freq_overrides_tx_freq
      | None => pure tt
      end
  | None, Some tx_freq =>
      ok <- ask (Set_tx_freq tx_freq) (set_tx_freq radio tx_freq) ;;
      when (negb ok) then print cerr Error_set_tx_freq
  | None, None => print cout Please_specify_freq ;; exit 1
  end ;;
  match vm_tx_ant vm with
  | Some tx_ant =>
      port_set <- find_tx_port tx_ant 0 ;;
      when (negb port_set) then print cerr Error_set_tx_port
  | None => pure tt
  end ;;
  match vm_tx_gain vm with
  | Some tx_gain =>
      ok <- ask (Set_tx_gain tx_gain) (set_tx_gain radio tx_gain) ;;
      when (negb ok) then print cerr Error_set_tx_gain
  | None => pure tt
  end ;;
  match vm_tx_iq_bias vm with
  | Some tx_iq_bias =>
      x <- interpret_bracketed_list tx_iq_bias "," ;;
      if negb (List.length x =? 2)%nat then print cerr Tx_iq_bias_requires_2
      else
        let y := firstn 2 x in
        ok <- ask (Set_tx_iq_bias y) (set_tx_iq_bias radio y) ;;
        when (negb ok) then print cerr Error_set_tx_iq_bias
  | None => pure tt
  end ;;
  match vm_tx_iq_corr vm with
  | Some tx_iq_corr =>
      x <- interpret_bracketed_list tx_iq_corr "," ;;
      if negb (List.length x =? 4)%nat then print cerr Tx_iq_corr_requires_4
      else
        let y := firstn 4 x in
        ok <- ask (Set_tx_iq_corr y) (set_tx_iq_corr radio y) ;;
        when (negb ok) then print cerr Error_set_tx_iq_corr
  | None => pure tt
  end ;;
  pure 0.

End HostRadioOptions.

(** ** utility.cpp *)

(** A 16-bit two's complement integer from its two bytes, low byte
    first (the waveform file is copied into memory as it is). *)
Definition int16_of_bytes (lo hi : Byte.byte) : Z :=
  let u := Z.of_N (Byte.to_N lo) + 256 * Z.of_N (Byte.to_N hi) in
  if u <? 32768 then u else u - 65536.

(** The first [n] samples stored in [bytes]. *)
Fixpoint samples_of_bytes (n : nat) (bytes : list Byte.byte) : list cplx16 :=
  match n, bytes with
  | S n', b0 :: b1 :: b2 :: b3 :: bytes' =>
      (int16_of_bytes b0 b1, int16_of_bytes b2 b3) :: samples_of_bytes n' bytes'
  | _, _ => []
  end.

Definition sizeof_cplx16 : nat := 4.

(** [read_cplx_16(name, data)], [file] being the contents of the file
    [name] when it can be opened: the vector [data] after the call and
    the number of samples read. *)
Definition read_cplx_16 (file : option (list Byte.byte)) (data : list cplx16)
  : list cplx16 * N :=
  match file with
  | Some bytes =>
      let num_elem := (List.length bytes / sizeof_cplx16)%nat in
      let data :=
        if (List.length data <? num_elem)%nat
        then data ++ repeat (0, 0) (num_elem - List.length data)
        else data in
      let data := samples_of_bytes num_elem bytes ++ skipn num_elem data in
      let data :=
        firstn num_elem data ++ repeat (0, 0) (List.length data - num_elem) in
      (data, N.of_nat num_elem)
  | None => (data, 0%N)
  end.

(** ** utility.cpp, writing *)

(** The byte made of the eight low bits of [z]. *)
Definition byte_of_Z (z : Z) : Byte.byte :=
  match Byte.of_N (Z.to_N (z mod 256)) with
  | Some b => b
  | None => Byte.x00
  end.

(** The two bytes of a 16-bit two's complement integer, low byte
    first. *)
Definition bytes_of_int16 (x : Z) : list Byte.byte :=
  [byte_of_Z x; byte_of_Z (x / 256)].

(** The memory of a vector of samples: real part, then imaginary
    part. *)
Fixpoint bytes_of_samples (data : list cplx16) : list Byte.byte :=
  match data with
  | [] => []
  | (re, im) :: data' =>
      bytes_of_int16 re ++ bytes_of_int16 im ++ bytes_of_samples data'
  end.

(** [write_cplx_16(name, data)], [good] telling whether the file [name]
    could be opened for writing: the contents of the file when it is
    written, and the number of samples written.  [data.front()] has no
    defined behaviour for an empty vector. *)
Definition write_cplx_16 (good : bool) (data : list cplx16)
  : outcome (option (list Byte.byte) * N) :=
  if good then
    match data with
    | [] => Undefined
    | _ :: _ =>
        let bytes := bytes_of_samples data in
        let num_elem := (List.length bytes / sizeof_cplx16)%nat in
        Returned (Some bytes, N.of_nat num_elem)
    end
  else Returned (None, 0%N).

(** The values of [int16_t], and the samples made of them. *)
Definition int16 (x : Z) : Prop := - 32768 <= x <= 32767.

Definition is_cplx16 (s : cplx16) : Prop := int16 (fst s) /\ int16 (snd s).

(** Whether [read_cplx_16] evaluates [data.front()] for an empty
    vector: the file is opened, it holds no whole sample, and the vector
    was empty.  The behaviour of the call is not defined then. *)
Definition takes_front_of_empty (file : option (list Byte.byte))
    (data : list cplx16) : bool :=
  match file with
  | Some bytes =>
      ((List.length bytes / sizeof_cplx16 =? 0) && (List.length data =? 0))%nat
  | None => false
  end.

(** ** utility.cpp, formatting *)

(** Conversion to [int32_t]. *)
Definition to_int32 (z : Z) : Z :=
  let u := z mod 2 ^ 32 in
  if u <? 2 ^ 31 then u else u - 2 ^ 32.

Definition digit_char (d : Z) : ascii := ascii_of_N (48 + Z.to_N d).

(** The decimal digits of [n], which is not negative, put before
    [acc]; [fuel] bounds their number. *)
Fixpoint decimal_digits (fuel : nat) (n : Z) (acc : string) : string :=
  match fuel with
  | O => acc
  | S fuel' =>
      let acc' := String (digit_char (n mod 10)) acc in
      if n / 10 =? 0 then acc' else decimal_digits fuel' (n / 10) acc'
  end.

(** [output << n] for a 32-bit integer [n], in decimal. *)
Definition insert_int (n : Z) : string :=
  if n <? 0 then String "-" (decimal_digits 10 (- n) EmptyString)
  else decimal_digits 10 n EmptyString.

Fixpoint fill (c : ascii) (n : nat) : string :=
  match n with
  | O => EmptyString
  | S n' => String c (fill c n')
  end.

(** [output << std::setfill(c) << std::setw(w) << s]: the text [s]
    after as many [c] as it lacks to the width [w]. *)
Definition setfill_setw (c : ascii) (w : nat) (s : string) : string :=
  (fill c (w - String.length s) ++ s)%string.

Section FormatTime.

(** [put_time n_seconds fmt] is the text that
    [std::put_time(localtime(&n_seconds), fmt)] inserts: the calendar
    time [n_seconds] in the time zone of the host. *)
Variable put_time : Z -> string -> string.

Definition format_time (t : time_point) (fmt : string) : string :=
  let n_seconds := duration_cast_s t in
  let ns := to_int32 (t - s_to_ns n_seconds) in
  (put_time n_seconds (c_str fmt)
   ++ "." ++ setfill_setw "0" 9 (insert_int ns))%string.

End FormatTime.

(** The [k] low decimal digits of [n], the highest first. *)
Fixpoint fixed_digits (k : nat) (n : Z) : string :=
  match k with
  | O => EmptyString
  | S k' => (fixed_digits k' (n / 10) ++ String (digit_char (n mod 10)) EmptyString)%string
  end.

(** ** vxsdr_tx_loop_file.cpp *)

(** [v.at(i)] *)
Definition at_ (pl : platform) (v : list N) (i : nat) : prog N :=
  match nth_error v i with
  | Some x => pure x
  | None => throw (Out_of_range (range_check_what pl i (List.length v)))
  end.

(** [o.value()] *)
Definition value {A} (o : option A) : prog A :=
  match o with
  | Some a => pure a
  | None => throw Bad_optional_access
  end.

(** How a run of the program ends: the exit status of the process, or
    undefined behaviour. *)
Inductive termination :=
| Status (status : Z)
| Undefined_behaviour.

Section TxLoopFile.

Variable pl : platform.
Variable vm : parsed_options.
Variable h : host.
Variable radio : device.

(** The number of repetitions computed from the duration and the
    pri. *)
Definition find_n_pulses (duration_sec pri_sec : double) : N :=
  if Double.gtb pri_sec Double.zero then
    to_size_t (llround (llround_invalid pl) (Double.div duration_sec pri_sec))
  else 0%N.

(** The body of the [try] block of [main]. *)
Definition main_try : prog unit :=
  print cout Started ;;
  let duration_sec := vm_duration vm in
  if Double.leb duration_sec Double.zero then
    print cerr Duration_must_be_positive ;; exit 1
  else
  let pri_sec := vm_pri vm in
  if Double.ltb pri_sec Double.zero then
    print cerr Pri_must_be_nonnegative ;; exit 1
  else
  let n_pulses := find_n_pulses duration_sec pri_sec in
  let name := vm_tx_waveform_file vm in
  let (tx_wf, n_read) := read_cplx_16 (files h name) [] in
  if (n_read =? 0)%N then
    print cerr (Unable_to_read_file name) ;; exit 1
  else
  print cout (Loaded_file name) ;;
  let n_samples := N.of_nat (List.length tx_wf) in
  if (n_samples =? 0)%N then
    print cerr (File_contains n_samples) ;; exit 1
  else
  print cout (File_contains n_samples) ;;
  emit (Call New_radio) ;;
  set_common_options vm h radio ;;
  set_network_options vm radio ;;
  set_tx_1ch_options pl vm radio ;;
  tx_rate <- ask Get_tx_rate (get_tx_rate radio 0) ;;
  let waveform_duration :=
    Double.div (of_N n_samples) (value_or tx_rate (of_Z (-1))) in
  if Double.gtb pri_sec Double.zero && Double.gtb waveform_duration pri_sec then
    print cerr (Waveform_longer_than_pri waveform_duration pri_sec) ;; exit 1
  else
  bsize <- ask Get_buffer_info (get_buffer_info radio) ;;
  tx_buffer_size_bytes <-
    match bsize with
    | Some v => at_ pl v 1
    | None => print cerr Unable_to_get_buffer_info ;; exit 1
    end ;;
  let tx_buffer_samps :=
    (tx_buffer_size_bytes / Npos (sizeof_wire_sample pl))%N in
  if (tx_buffer_samps <? n_samples)%N then
    print cerr (Will_not_fit tx_buffer_samps n_samples) ;; exit 1
  else
  hello_info <- ask Hello (hello radio) ;;
  match hello_info with
  | Some v =>
      wire_format <- at_ pl v 5 ;;
      granularity <- ask (Compute_sample_granularity wire_format)
                         (compute_sample_granularity radio wire_format) ;;
      if Double.eqb pri_sec Double.zero then
        if (granularity =? 0)%N then undefined
        else when (negb (n_samples mod granularity =? 0)%N)
             then print cerr Granularity_mismatch
      else pure tt
  | None => pure tt
  end ;;
  t1 <- ask Get_time_now (get_time_now radio 0) ;;
  match t1 with
  | Some t => print cout (Radio_time t)
  | None => print cerr Unable_to_get_radio_time ;; exit 1
  end ;;
  tx_freq <- ask Get_tx_freq (get_tx_freq radio) ;;
  print cout (Using_frequency (value_or tx_freq (of_Z (-1)))) ;;
  tx_rate <- ask Get_tx_rate (get_tx_rate radio 1) ;;
  print cout (Using_rate (value_or tx_rate (of_Z (-1)))) ;;
  tx_gain <- ask Get_tx_gain (get_tx_gain radio) ;;
  print cout (Using_tx_gain (value_or tx_gain (of_Z (-1)))) ;;
  print cout (Using_pri pri_sec) ;;
  print cout (Using_duration duration_sec) ;;
  t2 <- ask Get_time_now (get_time_now radio 1) ;;
  device_now <- value t2 ;;
  let t_start := s_to_ns (ceil_seconds device_now + 1) in
  print cout (Start_time t_start) ;;
  n_sent <- ask (Put_tx_data tx_wf) (put_tx_data radio tx_wf) ;;
  when (negb (n_sent =? n_samples)%N) then print cerr Error_sending_waveform ;;
  let pri :=
    llround (llround_invalid pl) (Double.mul (of_Z 1000000000) pri_sec) in
  ok <- ask (Tx_loop t_start n_samples pri n_pulses)
            (tx_loop radio t_start n_samples pri n_pulses) ;;
  if negb ok then print cerr Tx_loop_failed ;; exit 1
  else
  let duration :=
    ms_to_ns (llround (llround_invalid pl) (Double.mul (of_Z 1000) duration_sec)) in
  emit (Sleep_until (t_start + duration + ms_to_ns 100)) ;;
  print cout Transmit_complete.

(** [main]: the [try] block and its handler.  [exit] ends the process
    at once; an exception is reported and gives status 3; falling off
    the end of [main] gives status 0. *)
Definition main : trace * termination :=
  match main_try with
  | (t, Returned _) => (t, Status 0)
  | (t, Exited status) => (t, Status status)
  | (t, Thrown e) => (t ++ [Print cerr (Exception_caught (what e))], Status 3)
  | (t, Undefined) => (t, Undefined_behaviour)
  end.

End TxLoopFile.

(** ** Notions used to state the properties *)

(** The text of the exception that [at] of a [std::vector] throws in
    libstdc++, for the index [n] and the size [size]. *)
Definition vector_range_check (n size : nat) : string :=
  ("vector::_M_range_check: __n (which is "
   ++ decimal_digits 20 (Z.of_nat n) EmptyString
   ++ ") >= this->size() (which is "
   ++ decimal_digits 20 (Z.of_nat size) EmptyString ++ ")")%string.

(** The platform the examples are built for: glibc and libstdc++ on
    x86-64, where [llround] gives [LLONG_MIN] for a value it cannot
    represent and a wire sample is four bytes. *)
Definition glibc_x86_64 : platform :=
  {| stod := Stod.stod;
     llround_invalid := llong_min;
     sizeof_wire_sample := 4;
     range_check_what := vector_range_check |}.

(** The bracket pairs the parser knows. *)
Definition bracket_pairs : list (ascii * ascii) :=
  combine (list_ascii_of_string left_brackets)
          (list_ascii_of_string right_brackets).

(** A string of at least two characters whose first and last characters
    are a matching pair of brackets. *)
Definition enclosed (lst : string) : Prop :=
  (2 <= String.length lst)%nat /\
  exists l r, In (l, r) bracket_pairs /\
    String.get 0 lst = Some l /\
    String.get (String.length lst - 1) lst = Some r.

Definition interior (lst : string) : string :=
  String.substring 1 (String.length lst - 2) lst.

(** The lines that successive calls of [getline] extract from [iss]. *)
Equations? lines (delim : ascii) (iss : string) : list string
  by wf (String.length iss) lt :=
  lines delim iss with inspect (getline iss delim) := {
    | exist _ None _ := []
    | exist _ (Some (number, rest)) Hget := number :: lines delim rest }.
Proof. eapply getline_length; eassumption. Qed.

(** [stod] converts the token [number] to [x]. *)
Definition converts (pl : platform) (number : string) (x : double) : Prop :=
  stod pl (c_str number) = Stod_value x.

(** The millisecond offset of the host time within its second, as
    [set_common_options] computes it. *)
Definition host_msecs (t_now : time_point) : Z :=
  duration_cast_ms t_now - s_to_ms (floor_seconds t_now).



(** The repetition count as the specification words it, for a duration
    and a period: the rounded quotient when the period is positive, zero
    when the period is zero. *)
Definition repetitions_as_specified (n_pulses : N) (duration_sec pri_sec : double)
  : Prop :=
  (Double.gtb pri_sec Double.zero = true ->
   round (Double.div duration_sec pri_sec) = Some (Z.of_N n_pulses)) /\
  (Double.eqb pri_sec Double.zero = true -> n_pulses = 0%N).

(** The events [set_common_options], [set_network_options] and
    [set_tx_1ch_options] can perform. *)
Definition options_message (m : message) : bool :=
  match m with
  | Bracketed_cannot_interpret _ | Bracketed_no_matching_brackets _
  | Error_set_time_now | Error_set_time_next_pps | Unknown_time_source _
  | Error_set_max_payload_bytes
  | Error_set_tx_rate | Rate_overrides_tx_rate | Please_specify_rate
  | Error_set_tx_freq | Freq_overrides_tx_freq | Please_specify_freq
  | Error_set_tx_port | Error_set_tx_gain
  | Tx_iq_bias_requires_2 | Error_set_tx_iq_bias
  | Tx_iq_corr_requires_4 | Error_set_tx_iq_corr => true
  | _ => false
  end.

Definition options_call (c : call) : bool :=
  match c with
  | Set_time_now _ | Set_time_next_pps _ | Set_max_payload_bytes _
  | Set_tx_rate _ | Set_tx_freq _
  | Get_tx_num_ports | Get_tx_port_name _ | Set_tx_port _
  | Set_tx_gain _ | Set_tx_iq_bias _ | Set_tx_iq_corr _ => true
  | _ => false
  end.

Definition options_event (e : event) : bool :=
  match e with
  | Print _ m => options_message m
  | Call c => options_call c
  | Sleep_until _ => true
  end.


(** The upload of the waveform and the loop command. *)
Definition is_upload (e : event) : bool :=
  match e with
  | Call (Put_tx_data _) | Call (Tx_loop _ _ _ _) => true
  | _ => false
  end.

(** The messages that report a parsing or validation error and are
    followed by the end of the run. *)
Definition fatal_failure (m : message) : bool :=
  match m with
  | Bracketed_cannot_interpret _ | Bracketed_no_matching_brackets _
  | Unknown_time_source _ | Please_specify_rate | Please_specify_freq
  | Duration_must_be_positive | Pri_must_be_nonnegative
  | Unable_to_read_file _ | File_contains _
  | Waveform_longer_than_pri _ _ | Will_not_fit _ _ => true
  | _ => false
  end.



(** Those among them that concern the arguments and the waveform file
    alone. *)
Definition argument_failure (m : message) : bool :=
  match m with
  | Duration_must_be_positive | Pri_must_be_nonnegative
  | Unable_to_read_file _ | File_contains _ => true
  | _ => false
  end.


(** Those among the reports that are followed by the end of the run,
    and those of a list of the wrong length. *)
Definition fatal_failure_event (e : event) : bool :=
  match e with
  | Print cerr m => fatal_failure m
  | Print cout Please_specify_freq => true
  | _ => false
  end.



Definition argument_failure_event (e : event) : bool :=
  match e with
  | Print cerr m => argument_failure m
  | _ => false
  end.



(** A trace with events of the option functions only. *)
Definition only_options (t : trace) : Prop :=
  Forall (fun e => options_event e = true) t.

(** A trace without any report of a failed validation that ends the
    run. *)
Definition quiet (t : trace) : Prop :=
  Forall (fun e => fatal_failure_event e = false) t.


(** The inputs of a run pass every check that [main] makes before the
    [hello] query: the duration is positive and the period is not
    negative, the waveform file gives samples, the three option
    functions return, the waveform is not longer than a positive
    period, and the radio describes a buffer that holds the
    waveform. *)
Definition passes_checks (pl : platform) (vm : parsed_options) (h : host)
    (radio : device) : Prop :=
  Double.leb (vm_duration vm) Double.zero = false /\
  Double.ltb (vm_pri vm) Double.zero = false /\
  snd (read_cplx_16 (files h (vm_tx_waveform_file vm)) []) <> 0%N /\
  N.of_nat
    (List.length (fst (read_cplx_16 (files h (vm_tx_waveform_file vm)) [])))
  <> 0%N /\
  snd (set_common_options vm h radio) = Returned 0 /\
  snd (set_network_options vm radio) = Returned 0 /\
  snd (set_tx_1ch_options pl vm radio) = Returned 0 /\
  Double.gtb (vm_pri vm) Double.zero
  && Double.gtb
       (Double.div
          (of_N (N.of_nat
                   (List.length
                      (fst (read_cplx_16 (files h (vm_tx_waveform_file vm)) [])))))
          (value_or (get_tx_rate radio 0) (of_Z (-1))))
       (vm_pri vm) = false /\
  exists v bytes,
    get_buffer_info radio = Some v /\ nth_error v 1 = Some bytes /\
    (bytes / Npos (sizeof_wire_sample pl)
     <? N.of_nat
          (List.length
             (fst (read_cplx_16 (files h (vm_tx_waveform_file vm)) []))))%N
    = false.

(** The event [e2] comes directly after the event [e1] in [t]. *)
Definition follows (e1 e2 : event) (t : trace) : Prop :=
  exists t1 t2, t = t1 ++ e1 :: e2 :: t2.

(** The messages of the parser. *)
Definition parser_event (e : event) : bool :=
  match e with
  | Print cerr (Bracketed_cannot_interpret _)
  | Print cerr (Bracketed_no_matching_brackets _) => true
  | _ => false
  end.

(** Inputs for the worked examples: the options of a run with both
    [rate] and [freq] given, a host whose waveform file holds
    [n_samples] samples, and a radio that accepts every setting. *)
Definition example_vm (time_source : string) (duration_sec pri_sec : double)
  : parsed_options :=
  {| vm_time_source := Some time_source;
     vm_payload_size := None;
     vm_rate := Some (of_Z 1000000);
     vm_tx_rate := None;
     vm_freq := Some (of_Z 100000000);
     vm_tx_freq := None;
     vm_tx_ant := None;
     vm_tx_gain := Some Double.zero;
     vm_tx_iq_bias := None;
     vm_tx_iq_corr := None;
     vm_duration := duration_sec;
     vm_pri := pri_sec;
     vm_tx_waveform_file := "wf.dat" |}.

Definition example_host (now : time_point) (n_samples : nat) : host :=
  {| system_clock_now := now;
     files := fun name =>
       if String.eqb name "wf.dat"
       then Some (repeat Byte.x00 (sizeof_cplx16 * n_samples))
       else None |}.

Definition example_radio (hello_answer : option (list N))
    (buffer_bytes granularity : N) (device_now : time_point)
    (accepted : list cplx16 -> N) : device :=
  {| set_time_now := fun _ => true;
     set_time_next_pps := fun _ => true;
     set_max_payload_bytes := fun _ => true;
     set_tx_rate := fun _ => true;
     set_tx_freq := fun _ => true;
     get_tx_num_ports := fun _ => Some 1%N;
     get_tx_port_name := fun _ => Some "TX1"%string;
     set_tx_port := fun _ => true;
     set_tx_gain := fun _ => true;
     set_tx_iq_bias := fun _ => true;
     set_tx_iq_corr := fun _ => true;
     get_tx_rate := fun _ => Some (of_Z 1000000);
     get_tx_freq := Some (of_Z 100000000);
     get_tx_gain := Some Double.zero;
     get_buffer_info := Some [buffer_bytes; buffer_bytes];
     hello := hello_answer;
     compute_sample_granularity := fun _ => granularity;
     get_time_now := fun _ => Some device_now;
     put_tx_data := accepted;
     tx_loop := fun _ _ _ _ => true |}.

Definition all_accepted (wf : list cplx16) : N := N.of_nat (List.length wf).

(** A run with a waveform of 2048 samples of which the radio accepts
    2047. *)
Definition run_with_short_upload : trace * termination :=
  main glibc_x86_64
    (example_vm "host" (of_Z 10) Double.zero)
    (example_host 1700000000500000000 2048)
    (example_radio (Some [0; 0; 0; 0; 0; 7]%N) 16384 512
                   1700000002000000001 (fun _ => 2047%N)).

(** A run with a duration of [2^64] seconds and a period of one
    second. *)
Definition run_with_long_duration : trace * termination :=
  main glibc_x86_64
    (example_vm "host" (of_Z (2 ^ 64)) (of_Z 1))
    (example_host 1700000000500000000 2048)
    (example_radio (Some [0; 0; 0; 0; 0; 7]%N) 16384 512
                   1700000002000000001 all_accepted).


(** A run whose option [tx_iq_bias] holds three values. *)
Definition run_with_three_bias_values : trace * termination :=
  main glibc_x86_64
    {| vm_time_source := Some "host"%string;
       vm_payload_size := None;
       vm_rate := Some (of_Z 1000000);
       vm_tx_rate := None;
       vm_freq := Some (of_Z 100000000);
       vm_tx_freq := None;
       vm_tx_ant := None;
       vm_tx_gain := Some Double.zero;
       vm_tx_iq_bias := Some "[1,2,3]"%string;
       vm_tx_iq_corr := None;
       vm_duration := of_Z 10;
       vm_pri := Double.zero;
       vm_tx_waveform_file := "wf.dat" |}
    (example_host 1700000000500000000 2048)
    (example_radio (Some [0; 0; 0; 0; 0; 7]%N) 16384 512
                   1700000002000000001 all_accepted).

(** The waveform and its length in a run: what [read_cplx_16] leaves in
    the empty vector [tx_wf]. *)
Definition waveform (vm : parsed_options) (h : host) : list cplx16 :=
  fst (read_cplx_16 (files h (vm_tx_waveform_file vm)) []).

Definition waveform_length (vm : parsed_options) (h : host) : N :=
  N.of_nat (List.length (waveform vm h)).

(** ** Notions used to state further properties *)

(** The lines [ls], each followed by the delimiter. *)
Fixpoint unlines (delim : ascii) (ls : list string) : string :=
  match ls with
  | [] => EmptyString
  | l :: ls' => (l ++ String delim (unlines delim ls'))%string
  end.

(** Whether the character [c] occurs in [s]. *)
Fixpoint occurs (c : ascii) (s : string) : bool :=
  match s with
  | EmptyString => false
  | String a s' => ascii_eqb a c || occurs c s'
  end.

(** Whether [s] ends with the character [c]. *)
Fixpoint ends_with (c : ascii) (s : string) : bool :=
  match s with
  | EmptyString => false
  | String a EmptyString => ascii_eqb a c
  | String _ s' => ends_with c s'
  end.

(** [stod] converts the token [number]. *)
Definition convertible (pl : platform) (number : string) : Prop :=
  exists x, converts pl number x.

(** The tokens [ts] with the delimiter between them. *)
Fixpoint join (delim : ascii) (ts : list string) : string :=
  match ts with
  | [] => EmptyString
  | [t] => t
  | t :: ts' => (t ++ String delim (join delim ts'))%string
  end.

(** The conversions the loop of [interpret_bracketed_list] makes of the
    lines it reads, [ret] being the numbers found so far. *)
Fixpoint convert_all (pl : platform) (numbers : list string) (ret : list double)
  : prog (list double) :=
  match numbers with
  | [] => pure ret
  | number :: numbers' =>
      match stod pl (c_str number) with
      | Stod_value x => convert_all pl numbers' (ret ++ [x])
      | Stod_invalid_argument =>
          print cerr (Bracketed_cannot_interpret number) ;; exit 1
      | Stod_out_of_range => throw (Out_of_range "stod")
      end
  end.

(** The value in force for a setting that has a global option and an
    option of its own: the global one when it is given. *)
Definition overridden {A} (global own : option A) : option A :=
  match global with
  | Some x => Some x
  | None => own
  end.

(** The calls of the port search. *)
Definition port_event (e : event) : bool :=
  match e with
  | Call Get_tx_num_ports | Call (Get_tx_port_name _) | Call (Set_tx_port _) => true
  | _ => false
  end.

(** The number of ports the radio reports to a search that has reached
    port [n], as the loop test reads it. *)
Definition tx_num_ports (radio : device) (n : N) : N :=
  to_unsigned (value_or (get_tx_num_ports radio n) unsigned_max).

(** Port [n] has the name asked for and the radio accepts its
    selection. *)
Definition port_selectable (radio : device) (tx_ant : string) (n : N) : Prop :=
  value_or (get_tx_port_name radio n) EmptyString = tx_ant /\
  set_tx_port radio n = true.

(** The ways an option function can end: it returns [a], calls
    [exit(1)], or is left by the exception of [stod]. *)
Definition options_end {A} (o : outcome A) (a : A) : Prop :=
  o = Returned a \/ o = Exited 1 \/ o = Thrown (Out_of_range "stod").



(** The values of a 64-bit tick count. *)
Definition in_int64 (z : Z) : Prop := int64_min <= z <= int64_max.

(** The times of the end of a run are 64-bit tick counts: the start
    time, the duration in nanoseconds, and the sums that give the time
    the program sleeps until. *)
Definition sleep_fits (pl : platform) (vm : parsed_options) (radio : device)
  : Prop :=
  forall device_now,
    get_time_now radio 1 = Some device_now ->
    let t_start := s_to_ns (ceil_seconds device_now + 1) in
    let duration :=
      ms_to_ns (llround (llround_invalid pl)
                        (Double.mul (of_Z 1000) (vm_duration vm))) in
    in_int64 t_start /\ in_int64 duration /\
    in_int64 (t_start + duration) /\
    in_int64 (t_start + duration + ms_to_ns 100).

(** The trace [t] ends with the events [s]. *)
Definition ends_in (t s : trace) : Prop := exists t0, t = t0 ++ s.

(** The uploads and loop commands of a trace, in order. *)
Definition uploads (t : trace) : trace := filter is_upload t.

(** Further inputs for worked examples: options that give the rate
    twice, an antenna and both I/Q settings; a radio that answers
    nothing and refuses everything; and a radio that refuses the loop
    command alone. *)
Definition example_tx_vm : parsed_options :=
  {| vm_time_source := None;
     vm_payload_size := None;
     vm_rate := Some (of_Z 1000000);
     vm_tx_rate := Some (of_Z 2000000);
     vm_freq := None;
     vm_tx_freq := Some (of_Z 100000000);
     vm_tx_ant := Some "TX2"%string;
     vm_tx_gain := None;
     vm_tx_iq_bias := Some "[0.5,-2]"%string;
     vm_tx_iq_corr := Some "(1,0,0,1)"%string;
     vm_duration := of_Z 10;
     vm_pri := Double.zero;
     vm_tx_waveform_file := "wf.dat" |}.

Definition silent_radio : device :=
  {| set_time_now := fun _ => false;
     set_time_next_pps := fun _ => false;
     set_max_payload_bytes := fun _ => false;
     set_tx_rate := fun _ => false;
     set_tx_freq := fun _ => false;
     get_tx_num_ports := fun _ => None;
     get_tx_port_name := fun _ => None;
     set_tx_port := fun _ => false;
     set_tx_gain := fun _ => false;
     set_tx_iq_bias := fun _ => false;
     set_tx_iq_corr := fun _ => false;
     get_tx_rate := fun _ => None;
     get_tx_freq := None;
     get_tx_gain := None;
     get_buffer_info := None;
     hello := None;
     compute_sample_granularity := fun _ => 0%N;
     get_time_now := fun _ => None;
     put_tx_data := fun _ => 0%N;
     tx_loop := fun _ _ _ _ => false |}.

Definition loop_refused (r : device) : device :=
  {| set_time_now := set_time_now r;
     set_time_next_pps := set_time_next_pps r;
     set_max_payload_bytes := set_max_payload_bytes r;
     set_tx_rate := set_tx_rate r;
     set_tx_freq := set_tx_freq r;
     get_tx_num_ports := get_tx_num_ports r;
     get_tx_port_name := get_tx_port_name r;
     set_tx_port := set_tx_port r;
     set_tx_gain := set_tx_gain r;
     set_tx_iq_bias := set_tx_iq_bias r;
     set_tx_iq_corr := set_tx_iq_corr r;
     get_tx_rate := get_tx_rate r;
     get_tx_freq := get_tx_freq r;
     get_tx_gain := get_tx_gain r;
     get_buffer_info := get_buffer_info r;
     hello := hello r;
     compute_sample_granularity := compute_sample_granularity r;
     get_time_now := get_time_now r;
     put_tx_data := put_tx_data r;
     tx_loop := fun _ _ _ _ => false |}.

(** * Properties *)

(** ** Computations and their traces *)

Lemma bind_trace_In {A B} (m : prog A) (f : A -> prog B) e :
  In e (fst (bind m f)) ->
  In e (fst m) \/ exists a, snd m = Returned a /\ In e (fst (f a)).
Proof.
  destruct m as [t [a|st|ex|]]; simpl; auto.
  destruct (f a) as [t' o] eqn:Hf; simpl.
  rewrite in_app_iff. intros [H|H]; [now left|].
  right. exists a. rewrite Hf. auto.
Qed.

Lemma bind_trace_Forall {A B} (P : event -> Prop) (m : prog A) (f : A -> prog B) :
  Forall P (fst m) ->
  (forall a, snd m = Returned a -> Forall P (fst (f a))) ->
  Forall P (fst (bind m f)).
Proof.
  intros Hm Hf. apply Forall_forall. intros e He.
  apply bind_trace_In in He. destruct He as [He|[a [Ha He]]].
  - revert e He. now apply Forall_forall.
  - specialize (Hf a Ha). revert e He. now apply Forall_forall.
Qed.

Lemma bind_returned {A B} (m : prog A) (f : A -> prog B) b :
  snd (bind m f) = Returned b ->
  exists a, snd m = Returned a /\ snd (f a) = Returned b.
Proof.
  destruct m as [t [a|st|ex|]]; simpl; try discriminate.
  destruct (f a) as [t' o] eqn:Hf; simpl. intros ->.
  exists a. now rewrite Hf.
Qed.

(** Events of a computation that returns, when each part that returns
    has only events in [P]. *)
Lemma bind_returned_Forall {A B} (P : event -> Prop) (m : prog A) (f : A -> prog B) b :
  snd (bind m f) = Returned b ->
  (forall a, snd m = Returned a -> Forall P (fst m)) ->
  (forall a, snd m = Returned a -> snd (f a) = Returned b -> Forall P (fst (f a))) ->
  Forall P (fst (bind m f)).
Proof.
  intros Hr Hm Hf. apply bind_returned in Hr. destruct Hr as [a [Ha Hb]].
  apply bind_trace_Forall; [eauto|].
  intros a' Ha'. rewrite Ha in Ha'. injection Ha' as <-. eauto.
Qed.

(** ** The bracketed-list parser *)

Lemma parse_numbers_step pl delim iss ret :
  parse_numbers pl delim iss ret =
  match getline iss delim with
  | None => pure ret
  | Some (number, rest) =>
      match stod pl (c_str number) with
      | Stod_value x => parse_numbers pl delim rest (ret ++ [x])
      | Stod_invalid_argument =>
          print cerr (Bracketed_cannot_interpret number) ;; exit 1
      | Stod_out_of_range => throw (Out_of_range "stod")
      end
  end.
Proof.
  rewrite parse_numbers_equation_1.
  generalize (inspect (getline iss delim)).
  intros [[[number rest]|] e]; simpl.
  - destruct (stod pl (c_str number)) eqn:Hs; simpl; rewrite e, Hs; reflexivity.
  - rewrite e. reflexivity.
Qed.

Lemma lines_step delim iss :
  lines delim iss =
  match getline iss delim with
  | None => []
  | Some (number, rest) => number :: lines delim rest
  end.
Proof.
  rewrite lines_equation_1.
  generalize (inspect (getline iss delim)).
  intros [[[number rest]|] e]; simpl; rewrite e; reflexivity.
Qed.

(** The loop returns exactly when [stod] converts every line, and then
    it has appended the values, in order, and printed nothing. *)
Lemma parse_numbers_returned pl delim iss ret t xs :
  parse_numbers pl delim iss ret = (t, Returned xs) <->
  t = [] /\ exists ys, xs = ret ++ ys /\ Forall2 (converts pl) (lines delim iss) ys.
Proof.
  remember (String.length iss) as n eqn:Hn.
  revert iss Hn ret. induction n as [n IH] using lt_wf_ind. intros iss Hn ret.
  rewrite parse_numbers_step, lines_step.
  destruct (getline iss delim) as [[number rest]|] eqn:Hget.
  - pose proof (getline_length _ _ _ _ Hget) as Hlen.
    destruct (stod pl (c_str number)) as [x| |] eqn:Hs.
    + rewrite (IH (String.length rest)); [|lia|reflexivity]. split.
      * intros [-> [ys [-> Hys]]]. split; [reflexivity|].
        exists (x :: ys). rewrite <- app_assoc. split; [reflexivity|].
        constructor; assumption.
      * intros [-> [ys [-> Hys]]]. split; [reflexivity|].
        inversion Hys as [|? y ? ys' Hc Hys' ]; subst.
        unfold converts in Hc. rewrite Hs in Hc. injection Hc as <-.
        exists ys'. rewrite <- app_assoc. split; [reflexivity|assumption].
    + split; [discriminate|].
      intros [_ [ys [_ Hys]]]. inversion Hys as [|? y ? ys' Hc Hys']; subst.
      unfold converts in Hc. congruence.
    + split; [discriminate|].
      intros [_ [ys [_ Hys]]]. inversion Hys as [|? y ? ys' Hc Hys']; subst.
      unfold converts in Hc. congruence.
  - split.
    + intros [= <- <-]. split; [reflexivity|]. exists []. rewrite app_nil_r.
      split; [reflexivity|constructor].
    + intros [-> [ys [-> Hys]]]. inversion Hys. now rewrite app_nil_r.
Qed.

(** When the loop does not return, it has printed one message and called
    [exit(1)], or an exception of [stod] has left it. *)
Lemma parse_numbers_failed pl delim iss ret :
  (exists xs, parse_numbers pl delim iss ret = ([], Returned xs)) \/
  (exists number, In number (lines delim iss) /\
     stod pl (c_str number) = Stod_invalid_argument /\
     parse_numbers pl delim iss ret =
       ([Print cerr (Bracketed_cannot_interpret number)], Exited 1)) \/
  (exists number, In number (lines delim iss) /\
     stod pl (c_str number) = Stod_out_of_range /\
     parse_numbers pl delim iss ret = ([], Thrown (Out_of_range "stod"))).
Proof.
  remember (String.length iss) as n eqn:Hn.
  revert iss Hn ret. induction n as [n IH] using lt_wf_ind. intros iss Hn ret.
  rewrite parse_numbers_step, lines_step.
  destruct (getline iss delim) as [[number rest]|] eqn:Hget.
  - pose proof (getline_length _ _ _ _ Hget) as Hlen.
    destruct (stod pl (c_str number)) as [x| |] eqn:Hs.
    + destruct (IH (String.length rest) ltac:(lia) rest eq_refl (ret ++ [x]))
        as [H|[[nb [Hin H]]|[nb [Hin H]]]].
      * now left.
      * right; left. exists nb. split; [now right|assumption].
      * right; right. exists nb. split; [now right|assumption].
    + right; left. exists number. split; [now left|]. split; [assumption|reflexivity].
    + right; right. exists number. split; [now left|]. split; [assumption|reflexivity].
  - left. exists ret. reflexivity.
Qed.

Lemma get_in_range s n :
  (n < String.length s)%nat -> String.get n s <> None.
Proof.
  revert n. induction s as [|c s IH]; simpl; intros n Hn; [lia|].
  destruct n; [discriminate|]. apply IH. lia.
Qed.

Lemma find_bracket_enclosed lst :
  (2 <= String.length lst)%nat ->
  (find_bracket (seq 0 (String.length left_brackets)) lst
     <> String.length left_brackets <-> enclosed lst).
Proof.
  intros Hlen. unfold enclosed. simpl.
  destruct (String.get 0 lst) as [a|] eqn:Ha;
    [|destruct lst; [simpl in Hlen; lia|discriminate]].
  destruct (String.get (String.length lst - 1) lst) as [b|] eqn:Hb.
  2:{ exfalso. revert Hb. apply get_in_range. lia. }
  unfold option_ascii_eqb, ascii_eqb. split.
  - intros H. split; [assumption|]. exists a, b.
    split; [|split; reflexivity]. revert H.
    destruct (Ascii.eqb_spec a "["); [destruct (Ascii.eqb_spec b "]")|];
      simpl; subst; try tauto;
    (destruct (Ascii.eqb_spec a "("); [destruct (Ascii.eqb_spec b ")")|]);
      simpl; subst; try tauto;
    (destruct (Ascii.eqb_spec a "{"); [destruct (Ascii.eqb_spec b "}")|]);
      simpl; subst; tauto.
  - intros [_ [l [r [Hin [[= <-] [= <-]]]]]]. simpl in Hin.
    destruct Hin as [[= <- <-]|[[= <- <-]|[[= <- <-]|[]]]]; simpl; discriminate.
Qed.

(** The parser returns a sequence exactly when the string is enclosed in
    a matching pair of brackets and [stod] converts every line of the
    interior; the sequence holds the converted values in order, and
    nothing is printed. *)
Lemma interpret_bracketed_list_returned pl lst delim t xs :
  interpret_bracketed_list pl lst delim = (t, Returned xs) <->
  t = [] /\ enclosed lst /\
  Forall2 (converts pl) (lines delim (interior lst)) xs.
Proof.
  unfold interpret_bracketed_list.
  destruct (String.length lst <? 2)%nat eqn:Hlen.
  - apply Nat.ltb_lt in Hlen. split; [discriminate|].
    intros [_ [[H _] _]]. lia.
  - apply Nat.ltb_ge in Hlen.
    pose proof (find_bracket_enclosed lst Hlen) as Hfind.
    destruct (Nat.eqb_spec
                (find_bracket (seq 0 (String.length left_brackets)) lst)
                (String.length left_brackets)) as [Heq|Hne].
    + split; [discriminate|]. intros [_ [H _]]. apply Hfind in H. contradiction.
    + fold (interior lst). rewrite parse_numbers_returned.
      apply Hfind in Hne. split.
      * intros [-> [ys [-> Hys]]]. auto.
      * intros [-> [_ Hys]]. split; [reflexivity|]. exists xs. auto.
Qed.

(** Every call of the parser ends in one of three ways: it returns; it
    prints one message on [cerr] and calls [exit(1)]; or the
    [std::out_of_range] of [stod] leaves it, nothing being printed. *)
Lemma interpret_bracketed_list_outcomes pl lst delim :
  (exists xs, interpret_bracketed_list pl lst delim = ([], Returned xs)) \/
  (exists m, interpret_bracketed_list pl lst delim = ([Print cerr m], Exited 1)) \/
  (enclosed lst /\
   (exists number, In number (lines delim (interior lst)) /\
      stod pl (c_str number) = Stod_out_of_range) /\
   interpret_bracketed_list pl lst delim = ([], Thrown (Out_of_range "stod"))).
Proof.
  unfold interpret_bracketed_list.
  destruct (String.length lst <? 2)%nat eqn:Hlen.
  - right; left. eexists. reflexivity.
  - apply Nat.ltb_ge in Hlen.
    pose proof (find_bracket_enclosed lst Hlen) as Hfind.
    destruct (Nat.eqb_spec
                (find_bracket (seq 0 (String.length left_brackets)) lst)
                (String.length left_brackets)) as [Heq|Hne].
    + right; left. eexists. reflexivity.
    + fold (interior lst). apply Hfind in Hne.
      destruct (parse_numbers_failed pl delim (interior lst) [])
        as [H|[[nb [_ [_ H]]]|[nb [Hin [Hs H]]]]].
      * now left.
      * right; left. eexists. exact H.
      * right; right. split; [assumption|]. split; [|assumption].
        exists nb. auto.
Qed.

(** C10. A string made of a matching pair of brackets and nothing else
    is parsed successfully and gives the empty sequence, whatever the
    delimiter. *)
Theorem empty_brackets_give_empty_sequence pl delim l r :
  In (l, r) bracket_pairs ->
  interpret_bracketed_list pl (String l (String r EmptyString)) delim
  = ([], Returned []).
Proof.
  intros Hin. apply interpret_bracketed_list_returned.
  split; [reflexivity|]. split.
  - split; [simpl; lia|]. exists l, r. simpl. auto.
  - unfold interior. simpl. rewrite lines_step. simpl. constructor.
Qed.

Lemma empty_brackets_give_empty_sequence_witness :
  In ("["%char, "]"%char) bracket_pairs /\
  interpret_bracketed_list glibc_x86_64 "[]" "," = ([], Returned []).
Proof.
  split; [simpl; auto|].
  apply (empty_brackets_give_empty_sequence glibc_x86_64 "," "[" "]").
  simpl; auto.
Defined.

(** C6. A token whose value is too large for a [double] makes [stod]
    throw [std::out_of_range], which the handler for
    [std::invalid_argument] does not catch: the parser neither returns a
    sequence nor reports the error and exits, the exception leaves
    it. *)
Theorem out_of_range_token_escapes_parser :
  Stod.stod "1e999" = Stod_out_of_range /\
  interpret_bracketed_list glibc_x86_64 "[1e999]" ","
  = ([], Thrown (Out_of_range "stod")).
Proof. split; vm_compute; reflexivity. Qed.

(** The examples of the specification. *)
Example interpret_square :
  interpret_bracketed_list glibc_x86_64 "[1,2,3]" ","
  = ([], Returned [of_Z 1; of_Z 2; of_Z 3]).
Proof. vm_compute. reflexivity. Qed.

Example interpret_round :
  interpret_bracketed_list glibc_x86_64 "(1,2)" ","
  = ([], Returned [of_Z 1; of_Z 2]).
Proof. vm_compute. reflexivity. Qed.

Example interpret_mismatched :
  interpret_bracketed_list glibc_x86_64 "[1,2)" ","
  = ([Print cerr (Bracketed_no_matching_brackets "[1,2)")], Exited 1).
Proof. vm_compute. reflexivity. Qed.

(** ** Rounding and the repetition count *)

Lemma round_half_away_nonneg m e : 0 <= round_half_away m e.
Proof.
  unfold round_half_away. destruct e as [|p|p].
  - lia.
  - pose proof (Z.pow_pos_nonneg 2 (Zpos p)). lia.
  - apply Z.div_pos; pose proof (Z.pow_pos_nonneg 2 (Zpos p)); lia.
Qed.

(** For a negative exponent the result is the integer nearest to
    [m / 2^p], the upper one when two are equally near. *)
Lemma round_half_away_nearest m p :
  let d := 2 ^ Zpos p in
  let r := round_half_away m (Zneg p) in
  - d < 2 * (r * d - Zpos m) <= d.
Proof.
  intros d r.
  assert (Hd : 0 < d) by (apply Z.pow_pos_nonneg; lia).
  unfold r, round_half_away. fold d.
  pose proof (Z.div_mod (2 * Zpos m + d) (2 * d) ltac:(lia)) as Hdiv.
  pose proof (Z.mod_pos_bound (2 * Zpos m + d) (2 * d) ltac:(lia)) as Hmod.
  set (q := (2 * Zpos m + d) / (2 * d)) in *.
  set (x := (2 * Zpos m + d) mod (2 * d)) in *.
  nia.
Qed.

Lemma binary_round_aux_sign sx mx ex lx s m e :
  binary_round_aux prec emax sx mx ex lx = S754_finite s m e -> s = sx.
Proof.
  unfold binary_round_aux.
  destruct (shr_fexp prec emax mx ex lx) as [mrs' e'].
  destruct (shr_fexp prec emax _ e' loc_Exact) as [mrs'' e''].
  destruct (shr_m mrs'') as [|q|q]; try discriminate.
  destruct (e'' <=? emax - prec); [|discriminate].
  now intros [= <- _ _].
Qed.

Lemma gtb_zero_cases x :
  Double.gtb x Double.zero = true ->
  x = S754_infinity false \/ exists m e, x = S754_finite false m e.
Proof.
  unfold Double.gtb, Double.zero, SFltb, SFcompare.
  destruct x as [s|[|]| |[|] m e]; try discriminate; eauto.
Qed.

(** The quotient of two positive doubles is never negative. *)
Lemma round_div_nonneg x y r :
  Double.gtb x Double.zero = true ->
  Double.gtb y Double.zero = true ->
  round (Double.div x y) = Some r -> 0 <= r.
Proof.
  intros Hx Hy.
  apply gtb_zero_cases in Hx. apply gtb_zero_cases in Hy.
  destruct Hx as [->|[mx [ex ->]]]; destruct Hy as [->|[my [ey ->]]];
    try (simpl; discriminate).
  - simpl. intros [= <-]. lia.
  - unfold Double.div, SFdiv.
    destruct (SFdiv_core_binary prec emax (Zpos mx) ex (Zpos my) ey) as [[mz ez] lz].
    destruct (binary_round_aux prec emax (xorb false false) mz ez lz)
      as [s|s| |s m e] eqn:Hq; simpl; try discriminate.
    + intros [= <-]. lia.
    + apply binary_round_aux_sign in Hq. subst s. simpl.
      intros [= <-]. apply round_half_away_nonneg.
Qed.

Lemma to_size_t_small r : 0 <= r <= llong_max -> Z.of_N (to_size_t r) = r.
Proof.
  intros H. unfold to_size_t, llong_max in *.
  rewrite Z.mod_small by lia. apply Z2N.id. lia.
Qed.

Lemma eqb_zero_not_gtb x :
  Double.eqb x Double.zero = true -> Double.gtb x Double.zero = false.
Proof.
  unfold Double.eqb, Double.gtb, Double.zero, SFeqb, SFltb, SFcompare.
  destruct x as [s|[|]| |[|] m e]; try discriminate; reflexivity.
Qed.

(** C7, as amended.  For a positive duration and a period that is not
    negative: when the period is positive and the rounded quotient can
    be held by a [long long], the repetition count is that rounded
    quotient; when the period is zero, the repetition count is zero. *)
Theorem n_pulses_is_rounded_quotient pl duration_sec pri_sec :
  Double.gtb duration_sec Double.zero = true ->
  Double.leb Double.zero pri_sec = true ->
  (Double.gtb pri_sec Double.zero = true ->
   forall r, round (Double.div duration_sec pri_sec) = Some r ->
             r <= llong_max ->
             Z.of_N (find_n_pulses pl duration_sec pri_sec) = r) /\
  (Double.eqb pri_sec Double.zero = true ->
   find_n_pulses pl duration_sec pri_sec = 0%N).
Proof.
  intros Hd Hp. unfold find_n_pulses. split.
  - intros Hpos r Hr Hmax. rewrite Hpos. unfold llround. rewrite Hr.
    pose proof (round_div_nonneg _ _ _ Hd Hpos Hr) as H0.
    replace (llong_min <=? r) with true
      by (symmetry; apply Z.leb_le; unfold llong_min; lia).
    replace (r <=? llong_max) with true by (symmetry; now apply Z.leb_le).
    simpl. apply to_size_t_small. lia.
  - intros Hz. now rewrite (eqb_zero_not_gtb _ Hz).
Qed.

Lemma n_pulses_is_rounded_quotient_witness :
  Z.of_N (find_n_pulses glibc_x86_64 (of_Z 10) (of_Z 2)) = 5 /\
  (Double.eqb Double.zero Double.zero = true ->
   find_n_pulses glibc_x86_64 (of_Z 10) Double.zero = 0%N).
Proof.
  split.
  - apply (n_pulses_is_rounded_quotient glibc_x86_64 (of_Z 10) (of_Z 2));
      try reflexivity. vm_compute. discriminate.
  - apply (n_pulses_is_rounded_quotient glibc_x86_64 (of_Z 10) Double.zero);
      reflexivity.
Defined.

(** ** Rounding time points to seconds *)

Lemma ceil_seconds_bounds t :
  s_to_ns (ceil_seconds t) - ns_per_s < t <= s_to_ns (ceil_seconds t).
Proof.
  unfold ceil_seconds, s_to_ns, duration_cast_s, ns_per_s.
  pose proof (Z.quot_rem' t 1000000000) as Hqr.
  destruct (Z.le_gt_cases 0 t) as [Ht|Ht].
  - pose proof (Z.rem_bound_pos t 1000000000 Ht ltac:(lia)) as Hr.
    destruct (Z.ltb_spec (t ÷ 1000000000 * 1000000000) t); lia.
  - pose proof (Z.rem_bound_pos_neg t 1000000000 ltac:(lia) ltac:(lia)) as Hr.
    destruct (Z.ltb_spec (t ÷ 1000000000 * 1000000000) t); lia.
Qed.

Lemma floor_seconds_bounds t :
  s_to_ns (floor_seconds t) <= t < s_to_ns (floor_seconds t) + ns_per_s.
Proof.
  unfold floor_seconds, s_to_ns, duration_cast_s, ns_per_s.
  pose proof (Z.quot_rem' t 1000000000) as Hqr.
  destruct (Z.le_gt_cases 0 t) as [Ht|Ht].
  - pose proof (Z.rem_bound_pos t 1000000000 Ht ltac:(lia)) as Hr.
    destruct (Z.ltb_spec t (t ÷ 1000000000 * 1000000000)); lia.
  - pose proof (Z.rem_bound_pos_neg t 1000000000 ltac:(lia) ltac:(lia)) as Hr.
    destruct (Z.ltb_spec t (t ÷ 1000000000 * 1000000000)); lia.
Qed.

(** [ceil_seconds] is the mathematical ceiling: the least count of
    seconds that is not before [t]. *)
Lemma ceil_seconds_least t s :
  t <= s_to_ns s <-> ceil_seconds t <= s.
Proof.
  pose proof (ceil_seconds_bounds t) as H. unfold s_to_ns, ns_per_s in *. lia.
Qed.

Lemma floor_seconds_div t : floor_seconds t = t / ns_per_s.
Proof.
  pose proof (floor_seconds_bounds t) as H. unfold s_to_ns in H.
  apply Z.div_unique with (r := t - floor_seconds t * ns_per_s);
    unfold ns_per_s in *; lia.
Qed.

(** For a host time since the epoch, [host_msecs] is the number of whole
    milliseconds elapsed in the current second. *)
Lemma host_msecs_since_epoch t :
  0 <= t -> host_msecs t = (t mod ns_per_s) / ns_per_ms.
Proof.
  intros Ht. unfold host_msecs, duration_cast_ms, s_to_ms.
  rewrite floor_seconds_div, Z.quot_div_nonneg by (unfold ns_per_ms; lia).
  unfold ns_per_s, ns_per_ms, ms_per_s.
  pose proof (Z.div_mod t 1000000000 ltac:(lia)) as H1.
  pose proof (Z.mod_pos_bound t 1000000000 ltac:(lia)) as H2.
  set (q := t / 1000000000) in *. set (r := t mod 1000000000) in *.
  pose proof (Z.div_mod r 1000000 ltac:(lia)) as H3.
  pose proof (Z.mod_pos_bound r 1000000 ltac:(lia)) as H4.
  assert (Hq : t / 1000000 = q * 1000 + r / 1000000).
  { symmetry. apply Z.div_unique with (r := r mod 1000000); lia. }
  lia.
Qed.

(** The seconds the program computes stay within a 64-bit tick count
    as long as the clock reading is two seconds away from its end. *)
Lemma ceil_seconds_fits t :
  int64_min <= t <= int64_max - 2 * ns_per_s ->
  int64_min <= s_to_ns (ceil_seconds t) /\
  s_to_ns (ceil_seconds t + 1) <= int64_max.
Proof.
  pose proof (ceil_seconds_bounds t) as H.
  unfold s_to_ns, ns_per_s, int64_min, int64_max in *. lia.
Qed.

(** ** Clock synchronisation *)



(** ** The events of the option functions *)

Lemma find_tx_port_step radio tx_ant n :
  find_tx_port radio tx_ant n =
  if (n <? to_unsigned (value_or (get_tx_num_ports radio n) unsigned_max))%N
  then
    emit (Call Get_tx_num_ports) ;;
    name <- ask (Get_tx_port_name n) (get_tx_port_name radio n) ;;
    if String.eqb (value_or name EmptyString) tx_ant then
      ok <- ask (Set_tx_port n) (set_tx_port radio n) ;;
      if ok then pure true else find_tx_port radio tx_ant (n + 1)
    else find_tx_port radio tx_ant (n + 1)
  else emit (Call Get_tx_num_ports) ;; pure false.
Proof.
  rewrite find_tx_port_equation_1.
  generalize (inspect (to_unsigned (value_or (get_tx_num_ports radio n) unsigned_max))).
  intros [num_ports Hnum]. simpl.
  generalize (inspect (n <? num_ports)%N).
  intros [[|] Hlt]; simpl; rewrite Hnum, Hlt; reflexivity.
Qed.

Lemma find_tx_port_events radio tx_ant n :
  only_options (fst (find_tx_port radio tx_ant n)).
Proof.
  remember (ports_left n) as k eqn:Hk. revert n Hk.
  induction k as [k IH] using (well_founded_induction N.lt_wf_0).
  intros n Hk. rewrite find_tx_port_step.
  destruct (n <? to_unsigned _)%N eqn:Hlt.
  - pose proof (ports_left_step _ _ Hlt) as Hstep.
    assert (Hrec : only_options (fst (find_tx_port radio tx_ant (n + 1))))
      by (apply (IH (ports_left (n + 1))); [subst k; exact Hstep|reflexivity]).
    unfold only_options in *.
    apply bind_trace_Forall; [repeat constructor|]. intros _ _.
    apply bind_trace_Forall; [repeat constructor|]. intros name _.
    destruct (String.eqb _ tx_ant); [|exact Hrec].
    apply bind_trace_Forall; [repeat constructor|]. intros [|] _;
      [constructor|exact Hrec].
  - repeat constructor.
Qed.

Lemma interpret_bracketed_list_events pl lst delim :
  only_options (fst (interpret_bracketed_list pl lst delim)).
Proof.
  unfold only_options, interpret_bracketed_list.
  destruct (String.length lst <? 2)%nat; [repeat constructor|].
  destruct (_ =? _)%nat; [repeat constructor|].
  destruct (parse_numbers_failed pl delim
              (String.substring 1 (String.length lst - 2) lst) [])
    as [[xs ->]|[[nb [_ [_ ->]]]|[nb [_ [_ ->]]]]]; repeat constructor.
Qed.

Ltac options_events :=
  unfold only_options;
  repeat first
    [ apply find_tx_port_events
    | apply interpret_bracketed_list_events
    | apply bind_trace_Forall; [|intros ? ?]
    | match goal with
      | |- Forall _ (fst (match ?x with _ => _ end)) => destruct x
      end
    | solve [repeat constructor] ].

Lemma set_common_options_events vm h radio :
  only_options (fst (set_common_options vm h radio)).
Proof. unfold set_common_options. options_events. Qed.

Lemma set_network_options_events vm radio :
  only_options (fst (set_network_options vm radio)).
Proof. unfold set_network_options. options_events. Qed.

Lemma set_tx_1ch_options_events pl vm radio :
  only_options (fst (set_tx_1ch_options pl vm radio)).
Proof. unfold set_tx_1ch_options. options_events. Qed.

(** ** Symbolic execution of a computation

    [run H] follows a computation [H : c = (t, o)] statement by
    statement, with a case for every test and for every way a called
    function can end, until the trace [t] and the outcome [o] of each
    path are explicit. *)

Ltac red_prog H :=
  unfold at_, value, print, emit, ask, pure, exit, throw, undefined in H;
  cbn [bind app] in H.

Ltac finish H :=
  let Ht := fresh "Ht" in
  let Ho := fresh "Ho" in
  pose proof (f_equal fst H) as Ht;
  pose proof (f_equal snd H) as Ho;
  cbn [fst snd] in Ht, Ho; clear H;
  try discriminate Ho;
  try (injection Ho as Ho);
  subst.

Ltac run H :=
  red_prog H;
  lazymatch type of H with
  | (if ?c then _ else _) = _ =>
      let Hc := fresh "Hc" in destruct c eqn:Hc; run H
  | (let (_, _) := ?p in _) = _ =>
      let H' := fresh "Hrun" in
      destruct p eqn:H'; run H; run H'
  | match ?o with Some _ => _ | None => _ end = _ =>
      let Ho := fresh "Ho" in destruct o eqn:Ho; run H
  | bind ?m _ = _ =>
      let Hm := fresh "Hm" in
      destruct m as [? [?|?|?|]] eqn:Hm; run Hm; run H
  | (_, _) = (_, _) => finish H
  | _ => idtac
  end.

(** Proves [Forall P t] for a trace built from explicit events, for
    which [P] is decided by computation, and from traces already known
    to satisfy [P]. *)
Ltac forall_events :=
  repeat first
    [ apply Forall_nil
    | assumption
    | apply Forall_cons; [reflexivity|]
    | apply Forall_app; split ].

Lemma find_tx_port_quiet radio tx_ant n :
  quiet (fst (find_tx_port radio tx_ant n)).
Proof.
  remember (ports_left n) as k eqn:Hk. revert n Hk.
  induction k as [k IH] using (well_founded_induction N.lt_wf_0).
  intros n Hk. rewrite find_tx_port_step.
  destruct (n <? to_unsigned _)%N eqn:Hlt.
  - pose proof (ports_left_step _ _ Hlt) as Hstep.
    assert (Hrec : quiet (fst (find_tx_port radio tx_ant (n + 1))))
      by (apply (IH (ports_left (n + 1))); [subst k; exact Hstep|reflexivity]).
    unfold quiet in *.
    apply bind_trace_Forall; [repeat constructor|]. intros _ _.
    apply bind_trace_Forall; [repeat constructor|]. intros name _.
    destruct (String.eqb _ tx_ant); [|exact Hrec].
    apply bind_trace_Forall; [repeat constructor|]. intros [|] _;
      [constructor|exact Hrec].
  - repeat constructor.
Qed.

(** A part of a computation that returns is quiet when so is each of its
    two halves that returns. *)
Lemma quiet_bind {A B} (m : prog A) (f : A -> prog B) b :
  (forall a, snd m = Returned a -> quiet (fst m)) ->
  (forall a, snd (f a) = Returned b -> quiet (fst (f a))) ->
  snd (bind m f) = Returned b -> quiet (fst (bind m f)).
Proof.
  intros Hm Hf Hr. apply bind_returned in Hr. destruct Hr as [a [Ha Hb]].
  unfold quiet in *. apply bind_trace_Forall; [eauto|].
  intros a' Ha'. assert (a' = a) by congruence. subst a'. eauto.
Qed.

(** One statement of an option function: when it returns, it has
    reported no failed validation. *)
Ltac quiet_statement :=
  let a := fresh "a" in
  let Hr := fresh "Hr" in
  let E := fresh "E" in
  intros a Hr;
  match type of Hr with
  | snd ?c = _ => destruct c as [? ?] eqn:E
  end;
  cbn [fst snd] in Hr |- *; subst;
  run E;
  repeat match goal with
  | H : interpret_bracketed_list _ _ _ = (_, Returned _) |- _ =>
      apply interpret_bracketed_list_returned in H; destruct H as [-> _]
  | H : find_tx_port ?r ?a ?n = (?t, _) |- _ =>
      let Hq := fresh "Hq" in
      pose proof (find_tx_port_quiet r a n) as Hq;
      rewrite H in Hq; cbn [fst] in Hq; unfold quiet in Hq; clear H
  end;
  unfold quiet; cbn [app]; forall_events.

Lemma set_common_options_returned vm h radio a :
  snd (set_common_options vm h radio) = Returned a ->
  quiet (fst (set_common_options vm h radio)).
Proof.
  unfold set_common_options.
  apply quiet_bind; [|intros; repeat constructor]. quiet_statement.
Qed.

Lemma set_network_options_returned vm radio a :
  snd (set_network_options vm radio) = Returned a ->
  quiet (fst (set_network_options vm radio)).
Proof.
  unfold set_network_options.
  apply quiet_bind; [|intros; repeat constructor]. quiet_statement.
Qed.

Lemma set_tx_1ch_options_returned pl vm radio a :
  snd (set_tx_1ch_options pl vm radio) = Returned a ->
  quiet (fst (set_tx_1ch_options pl vm radio)).
Proof.
  unfold set_tx_1ch_options.
  repeat (apply quiet_bind; [quiet_statement|intros _]).
  intros; repeat constructor.
Qed.

(** ** Runs of the program *)

(** Every path through [main]. *)
Ltac run_main pl vm h radio :=
  let Fc := fresh "Fc" in
  let Fn := fresh "Fn" in
  let Ft := fresh "Ft" in
  let H := fresh "Hmain" in
  pose proof (set_common_options_events vm h radio) as Fc;
  pose proof (set_network_options_events vm radio) as Fn;
  pose proof (set_tx_1ch_options_events pl vm radio) as Ft;
  unfold only_options, waveform_length, waveform, main in *;
  destruct (main_try pl vm h radio) as [? ?] eqn:H;
  unfold main_try in H; run H;
  cbn [fst snd app] in *; rewrite <- ?app_assoc in *; cbn [app] in *.

(** An event found in a trace: one case for each place it can be at.
    Events of the option functions are recognised by [options_event]. *)
Ltac in_trace H :=
  lazymatch type of H with
  | In _ (_ :: _) =>
      destruct H as [H|H]; [try discriminate H | in_trace H]
  | In _ (_ ++ _) =>
      apply in_app_or in H; destruct H as [H|H]; in_trace H
  | In _ [] => destruct H
  | In _ ?t =>
      try match goal with
      | F : Forall _ t |- _ =>
          rewrite Forall_forall in F; apply F in H; discriminate H
      end
  | _ => idtac
  end.

(** Shows an event of an explicit trace. *)
Ltac in_solve :=
  cbn [fst snd];
  repeat first [ left; reflexivity | apply in_or_app; right | right ].

(** C8. The start time of every loop command is the second reading of
    the radio clock, taken once the clock and the transmitter are set
    up, rounded up to a whole second, plus one second. *)
Theorem loop_starts_one_second_after_device_time
    pl vm h radio t_start n_samples pri n_pulses :
  In (Call (Tx_loop t_start n_samples pri n_pulses)) (fst (main pl vm h radio)) ->
  exists device_now,
    get_time_now radio 1 = Some device_now /\
    t_start = s_to_ns (ceil_seconds device_now) + ns_per_s.
Proof.
  run_main pl vm h radio; intros Hin; in_trace Hin;
    injection Hin as <- _ _ _; eexists; (split; [reflexivity|]);
    unfold s_to_ns; lia.
Qed.

Lemma loop_starts_one_second_after_device_time_witness :
  exists device_now,
    get_time_now
      (example_radio (Some [0; 0; 0; 0; 0; 7]%N) 16384 512
                     1700000002000000001 all_accepted) 1
    = Some device_now /\
    1700000004000000000 = s_to_ns (ceil_seconds device_now) + ns_per_s.
Proof.
  apply (loop_starts_one_second_after_device_time
           glibc_x86_64
           (example_vm "host" (of_Z 10) (of_Z 2))
           (example_host 1700000000500000000 2048)
           (example_radio (Some [0; 0; 0; 0; 0; 7]%N) 16384 512
                          1700000002000000001 all_accepted)
           1700000004000000000 2048 2000000000 5).
  vm_compute. in_solve.
Defined.

(** ** The buffer-fit check *)

(** C4. In a run that reaches the check, where the radio reports a
    buffer of [bytes] bytes, the capacity being [bytes] divided by the
    size of a wire sample: the check passes, and the run goes on to
    query the radio, exactly when the waveform is not longer than the
    capacity; otherwise the run reports both the capacity and the
    length and ends with status 1. *)
Theorem buffer_fit_check pl vm h radio v bytes :
  In (Call Get_buffer_info) (fst (main pl vm h radio)) ->
  get_buffer_info radio = Some v ->
  nth_error v 1 = Some bytes ->
  let capacity := (bytes / Npos (sizeof_wire_sample pl))%N in
  let length := waveform_length vm h in
  ((length <= capacity)%N <-> In (Call Hello) (fst (main pl vm h radio))) /\
  ((length <= capacity)%N ->
   forall available needed,
     ~ In (Print cerr (Will_not_fit available needed)) (fst (main pl vm h radio))) /\
  ((capacity < length)%N ->
   In (Print cerr (Will_not_fit capacity length)) (fst (main pl vm h radio)) /\
   snd (main pl vm h radio) = Status 1).
Proof.
  intros Hin Hinfo Hbytes capacity length. subst capacity length.
  run_main pl vm h radio; in_trace Hin;
    try discriminate Hinfo; injection Hinfo as <-;
    try congruence;
    match goal with
    | H : nth_error _ 1 = Some ?x |- _ =>
        assert (x = bytes) by congruence; subst x
    end;
    match goal with
    | Hc : (_ <? _)%N = true |- _ => apply N.ltb_lt in Hc
    | Hc : (_ <? _)%N = false |- _ => apply N.ltb_ge in Hc
    end.
  all: split; [split; [intros Hle; try lia; in_solve
                      |intros Hh; try assumption; in_trace Hh]|].
  all: split; [intros Hle available needed Hw; try lia; in_trace Hw|].
  all: intros Hlt; try lia.
  all: split; [in_solve|reflexivity].
Qed.

Lemma buffer_fit_check_witness :
  In (Call Hello)
     (fst (main glibc_x86_64
             (example_vm "host" (of_Z 10) Double.zero)
             (example_host 1700000000500000000 2048)
             (example_radio (Some [0; 0; 0; 0; 0; 7]%N) 16384 512
                            1700000002000000001 all_accepted))).
Proof.
  destruct (buffer_fit_check glibc_x86_64
              (example_vm "host" (of_Z 10) Double.zero)
              (example_host 1700000000500000000 2048)
              (example_radio (Some [0; 0; 0; 0; 0; 7]%N) 16384 512
                             1700000002000000001 all_accepted)
              [16384; 16384]%N 16384%N) as [[Hle _] _].
  - vm_compute. in_solve.
  - reflexivity.
  - reflexivity.
  - apply Hle. vm_compute. discriminate.
Defined.

(** The examples of the specification: with room for 1 000 000 samples,
    999 999 samples fit, and 1 000 001 samples do not. *)
Example buffer_fit_examples :
  let capacity := (4000000 / Npos (sizeof_wire_sample glibc_x86_64))%N in
  capacity = 1000000%N /\
  (capacity <? 999999)%N = false /\ (capacity <? 1000001)%N = true.
Proof. vm_compute. auto. Qed.

Ltac bool_facts :=
  repeat match goal with
  | H : negb _ = true |- _ => apply negb_true_iff in H
  | H : negb _ = false |- _ => apply negb_false_iff in H
  | H : (_ =? _)%N = true |- _ => apply N.eqb_eq in H
  | H : (_ =? _)%N = false |- _ => apply N.eqb_neq in H
  end.

(** ** The granularity check *)

Lemma gtb_zero_not_eqb x :
  Double.gtb x Double.zero = true -> Double.eqb x Double.zero = false.
Proof.
  intros H. destruct (Double.eqb x Double.zero) eqn:E; [|reflexivity].
  apply eqb_zero_not_gtb in E. congruence.
Qed.

(** C5. In a run that reaches the granularity check, the granularity the
    radio gives being positive: the warning is printed exactly when the
    period is zero and the length of the waveform is not a multiple of
    the granularity, so never when the period is positive; with or
    without the warning the run goes on to read the radio clock, and it
    issues the loop command when the clock is read. *)
Theorem granularity_warning pl vm h radio wire_format :
  In (Call (Compute_sample_granularity wire_format)) (fst (main pl vm h radio)) ->
  let granularity := compute_sample_granularity radio wire_format in
  let length := waveform_length vm h in
  granularity <> 0%N ->
  (In (Print cerr Granularity_mismatch) (fst (main pl vm h radio)) <->
   Double.eqb (vm_pri vm) Double.zero = true /\ (length mod granularity)%N <> 0%N) /\
  (Double.gtb (vm_pri vm) Double.zero = true ->
   ~ In (Print cerr Granularity_mismatch) (fst (main pl vm h radio))) /\
  In (Call Get_time_now) (fst (main pl vm h radio)) /\
  (forall t1 t2,
     get_time_now radio 0 = Some t1 -> get_time_now radio 1 = Some t2 ->
     exists t_start pri n_pulses,
       In (Call (Tx_loop t_start length pri n_pulses)) (fst (main pl vm h radio))).
Proof.
  intros Hin granularity length Hg. subst granularity length.
  run_main pl vm h radio; in_trace Hin; injection Hin as <-; bool_facts;
    try contradiction.
  all: split;
    [split;
     [ intros Hw; in_trace Hw; (split; [reflexivity|assumption])
     | intros [He Hne]; first [discriminate He | contradiction | in_solve] ]|].
  all: split;
    [intros Hgt Hw; apply gtb_zero_not_eqb in Hgt; in_trace Hw; congruence|].
  all: split; [in_solve|].
  all: intros u1 u2 Hu1 Hu2; try discriminate Hu1; try discriminate Hu2.
  all: do 3 eexists; in_solve.
Qed.

Lemma granularity_warning_witness :
  In (Print cerr Granularity_mismatch)
     (fst (main glibc_x86_64
             (example_vm "host" (of_Z 10) Double.zero)
             (example_host 1700000000500000000 1000)
             (example_radio (Some [0; 0; 0; 0; 0; 7]%N) 16384 256
                            1700000002000000001 all_accepted))).
Proof.
  destruct (granularity_warning glibc_x86_64
              (example_vm "host" (of_Z 10) Double.zero)
              (example_host 1700000000500000000 1000)
              (example_radio (Some [0; 0; 0; 0; 0; 7]%N) 16384 256
                             1700000002000000001 all_accepted) 7%N)
    as [[_ Hw] _].
  - vm_compute. in_solve.
  - vm_compute. discriminate.
  - apply Hw. split; [reflexivity|]. vm_compute. discriminate.
Defined.

(** The examples of the specification, with a granularity of 256
    samples and a period of zero: no warning for 1024 samples. *)
Example granularity_no_warning :
  ~ In (Print cerr Granularity_mismatch)
       (fst (main glibc_x86_64
               (example_vm "host" (of_Z 10) Double.zero)
               (example_host 1700000000500000000 1024)
               (example_radio (Some [0; 0; 0; 0; 0; 7]%N) 16384 256
                              1700000002000000001 all_accepted))).
Proof.
  intros H. vm_compute in H.
  repeat (destruct H as [H|H]; [discriminate H|]). exact H.
Qed.

Lemma follows_here e1 e2 t : follows e1 e2 (e1 :: e2 :: t).
Proof. exists [], t. reflexivity. Qed.

Lemma follows_cons e e1 e2 t : follows e1 e2 t -> follows e1 e2 (e :: t).
Proof. intros [t1 [t2 ->]]. exists (e :: t1), t2. reflexivity. Qed.

Lemma follows_app t' e1 e2 t : follows e1 e2 t -> follows e1 e2 (t' ++ t).
Proof.
  intros [t1 [t2 ->]]. exists (t' ++ t1), t2. now rewrite app_assoc.
Qed.

(** Shows two neighbours of an explicit trace. *)
Ltac follows_solve :=
  cbn [fst snd];
  repeat first [ apply follows_here | apply follows_cons | apply follows_app ].

(** C9. When the radio gives no answer to [hello], the granularity is
    neither computed nor checked and no warning is printed, whatever
    the period and the length of the waveform.  A run whose inputs pass
    the checks before the query makes the query; and a run that makes
    the query goes on without a message: its next event is the reading
    of the radio clock, and it issues the loop command when the clock
    is read. *)
Theorem no_hello_no_granularity_check pl vm h radio :
  hello radio = None ->
  ~ In (Print cerr Granularity_mismatch) (fst (main pl vm h radio)) /\
  (forall wire_format,
     ~ In (Call (Compute_sample_granularity wire_format)) (fst (main pl vm h radio))) /\
  (passes_checks pl vm h radio -> In (Call Hello) (fst (main pl vm h radio))) /\
  (In (Call Hello) (fst (main pl vm h radio)) ->
   follows (Call Hello) (Call Get_time_now) (fst (main pl vm h radio)) /\
   forall t1 t2,
     get_time_now radio 0 = Some t1 -> get_time_now radio 1 = Some t2 ->
     exists t_start pri n_pulses,
       In (Call (Tx_loop t_start (waveform_length vm h) pri n_pulses))
          (fst (main pl vm h radio))).
Proof.
  intros Hh. unfold passes_checks.
  run_main pl vm h radio; try discriminate Hh.
  all: split; [intros Hw; in_trace Hw|].
  all: split; [intros wire_format Hw; in_trace Hw|].
  all: split;
    [intros [Hd [Hp [Hn [Hs [Hc' [Hn' [Ht' [Hper [v' [b' [Hv' [Hb' Hfit]]]]]]]]]]]];
     cbn [fst snd] in *; bool_facts;
     first [ in_solve; fail | congruence ]|].
  all: intros Hin; in_trace Hin.
  all: split; [follows_solve|].
  all: intros u1 u2 Hu1 Hu2; try discriminate Hu1; try discriminate Hu2.
  all: do 3 eexists; in_solve.
Qed.

(** A run with a period of zero, a waveform of 1000 samples and a radio
    that does not answer [hello] and whose granularity is 256: the
    inputs pass every check, there is no warning, the clock is read
    next and the loop command is issued. *)
Lemma no_hello_no_granularity_check_witness :
  passes_checks glibc_x86_64
    (example_vm "host" (of_Z 10) Double.zero)
    (example_host 1700000000500000000 1000)
    (example_radio None 16384 256 1700000002000000001 all_accepted) /\
  ~ In (Print cerr Granularity_mismatch)
       (fst (main glibc_x86_64
               (example_vm "host" (of_Z 10) Double.zero)
               (example_host 1700000000500000000 1000)
               (example_radio None 16384 256 1700000002000000001 all_accepted))) /\
  follows (Call Hello) (Call Get_time_now)
       (fst (main glibc_x86_64
               (example_vm "host" (of_Z 10) Double.zero)
               (example_host 1700000000500000000 1000)
               (example_radio None 16384 256 1700000002000000001 all_accepted))) /\
  exists t_start pri n_pulses,
    In (Call (Tx_loop t_start
                (waveform_length (example_vm "host" (of_Z 10) Double.zero)
                                 (example_host 1700000000500000000 1000))
                pri n_pulses))
       (fst (main glibc_x86_64
               (example_vm "host" (of_Z 10) Double.zero)
               (example_host 1700000000500000000 1000)
               (example_radio None 16384 256 1700000002000000001 all_accepted))).
Proof.
  destruct (no_hello_no_granularity_check glibc_x86_64
              (example_vm "host" (of_Z 10) Double.zero)
              (example_host 1700000000500000000 1000)
              (example_radio None 16384 256 1700000002000000001 all_accepted)
              eq_refl) as [Hw [_ [Hreach Hgo]]].
  assert (Hpass : passes_checks glibc_x86_64
            (example_vm "host" (of_Z 10) Double.zero)
            (example_host 1700000000500000000 1000)
            (example_radio None 16384 256 1700000002000000001 all_accepted)).
  { unfold passes_checks. repeat split; try (vm_compute; congruence).
    exists [16384; 16384]%N, 16384%N. repeat split. }
  specialize (Hgo (Hreach Hpass)). destruct Hgo as [Hnext Hloop].
  split; [exact Hpass|]. split; [exact Hw|]. split; [exact Hnext|].
  exact (Hloop _ _ eq_refl eq_refl).
Defined.



(** ** The upload *)

(** X22. Whenever the radio accepts another number of samples than
    the waveform has, the program prints a message and goes on: the loop
    command is issued all the same, and the run ends with status 0 when
    the radio accepts that command. *)
Lemma incomplete_upload_still_loops pl vm h radio :
  In (Print cerr Error_sending_waveform) (fst (main pl vm h radio)) ->
  put_tx_data radio (waveform vm h) <> waveform_length vm h /\
  exists t_start pri n_pulses,
    In (Call (Tx_loop t_start (waveform_length vm h) pri n_pulses))
       (fst (main pl vm h radio)) /\
    (tx_loop radio t_start (waveform_length vm h) pri n_pulses = true ->
     snd (main pl vm h radio) = Status 0).
Proof.
  intros Hin.
  run_main pl vm h radio; in_trace Hin; bool_facts.
  all: split; [assumption|].
  all: do 3 eexists; (split; [in_solve|]).
  all: intros Hok; first [reflexivity | cbn [negb] in *; congruence].
Qed.

(** C1. A radio that accepts 2047 of the 2048 samples of the waveform:
    the program reports the error, issues the loop command over all 2048
    samples and ends with status 0. *)
Theorem incomplete_upload_is_not_fatal :
  fst run_with_short_upload =
    [Print cout Started;
     Print cout (Loaded_file "wf.dat");
     Print cout (File_contains 2048);
     Call New_radio;
     Call (Set_time_now 1700000000500000000);
     Call (Set_tx_rate (of_Z 1000000));
     Call (Set_tx_freq (of_Z 100000000));
     Call (Set_tx_gain Double.zero);
     Call Get_tx_rate;
     Call Get_buffer_info;
     Call Hello;
     Call (Compute_sample_granularity 7);
     Call Get_time_now;
     Print cout (Radio_time 1700000002000000001);
     Call Get_tx_freq;
     Print cout (Using_frequency (of_Z 100000000));
     Call Get_tx_rate;
     Print cout (Using_rate (of_Z 1000000));
     Call Get_tx_gain;
     Print cout (Using_tx_gain Double.zero);
     Print cout (Using_pri Double.zero);
     Print cout (Using_duration (of_Z 10));
     Call Get_time_now;
     Print cout (Start_time 1700000004000000000);
     Call (Put_tx_data (repeat (0, 0) 2048));
     Print cerr Error_sending_waveform;
     Call (Tx_loop 1700000004000000000 2048 0 0);
     Sleep_until 1700000014100000000;
     Print cout Transmit_complete] /\
  snd run_with_short_upload = Status 0.
Proof. split; vm_compute; reflexivity. Qed.

(** ** Validation and the state of the radio *)

Lemma options_event_not_upload e :
  options_event e = true -> is_upload e = false.
Proof. destruct e as [s m|c|t]; [| destruct c |]; simpl; congruence. Qed.

Lemma options_event_not_argument_failure e :
  options_event e = true -> argument_failure_event e = false.
Proof.
  destruct e as [s m|c|t]; [destruct s, m| |]; simpl; congruence.
Qed.

(** What is known of the trace of an option function, in the forms the
    proofs below use. *)
Ltac options_facts :=
  repeat match goal with
  | F : Forall (fun e => options_event e = true) ?t |- _ =>
      let U := fresh "U" in
      let A := fresh "A" in
      pose proof (Forall_impl _ options_event_not_upload F) as U;
      pose proof (Forall_impl _ options_event_not_argument_failure F) as A;
      cbv beta in U, A; clear F
  end;
  repeat match goal with
  | Hm : set_common_options ?vm ?h ?r = (_, Returned ?a) |- _ =>
      let Q := fresh "Q" in
      pose proof (set_common_options_returned vm h r a) as Q;
      rewrite Hm in Q; specialize (Q eq_refl);
      cbn [fst] in Q; unfold quiet in Q; clear Hm
  | Hm : set_network_options ?vm ?r = (_, Returned ?a) |- _ =>
      let Q := fresh "Q" in
      pose proof (set_network_options_returned vm r a) as Q;
      rewrite Hm in Q; specialize (Q eq_refl);
      cbn [fst] in Q; unfold quiet in Q; clear Hm
  | Hm : set_tx_1ch_options ?pl ?vm ?r = (_, Returned ?a) |- _ =>
      let Q := fresh "Q" in
      pose proof (set_tx_1ch_options_returned pl vm r a) as Q;
      rewrite Hm in Q; specialize (Q eq_refl);
      cbn [fst] in Q; unfold quiet in Q; clear Hm
  end.


(** ** The loop command *)

Lemma not_leb_zero x :
  Double.leb x Double.zero = false ->
  x = S754_nan \/ Double.gtb x Double.zero = true.
Proof.
  unfold Double.leb, Double.gtb, Double.zero, SFleb, SFltb, SFcompare.
  destruct x as [s|[|]| |[|] m e]; try discriminate; auto.
Qed.

Lemma not_ltb_zero x :
  Double.ltb x Double.zero = false ->
  x = S754_nan \/ Double.leb Double.zero x = true.
Proof.
  unfold Double.leb, Double.ltb, Double.zero, SFleb, SFltb, SFcompare.
  destruct x as [s|[|]| |[|] m e]; try discriminate; auto.
Qed.

(** X23. What every loop command carries: the length of the waveform, the
    period rounded to a nanosecond and the repetition count computed
    from the duration and the period; and the duration and the period
    have passed their checks. *)
Lemma loop_command_arguments pl vm h radio t_start n_samples pri n_pulses :
  In (Call (Tx_loop t_start n_samples pri n_pulses)) (fst (main pl vm h radio)) ->
  n_samples = waveform_length vm h /\
  pri = llround (llround_invalid pl)
                (Double.mul (of_Z 1000000000) (vm_pri vm)) /\
  n_pulses = find_n_pulses pl (vm_duration vm) (vm_pri vm) /\
  Double.leb (vm_duration vm) Double.zero = false /\
  Double.ltb (vm_pri vm) Double.zero = false.
Proof.
  run_main pl vm h radio; intros Hin; in_trace Hin;
    injection Hin as <- <- <- <-; auto.
Qed.

(** C7, as stated, fails: a duration of [2^64] seconds with a period of
    one second has the rounded quotient [2^64], which no [size_t]
    holds; the loop command of such a run carries [2^63]. *)
Lemma n_pulses_not_rounded_quotient :
  Double.gtb (of_Z (2 ^ 64)) Double.zero = true /\
  Double.leb Double.zero (of_Z 1) = true /\
  ~ repetitions_as_specified
      (find_n_pulses glibc_x86_64 (of_Z (2 ^ 64)) (of_Z 1))
      (of_Z (2 ^ 64)) (of_Z 1) /\
  In (Call (Tx_loop 1700000004000000000 2048 1000000000 (2 ^ 63)))
     (fst run_with_long_duration).
Proof.
  split; [reflexivity|]. split; [reflexivity|]. split.
  - intros [H _]. specialize (H eq_refl). vm_compute in H. discriminate.
  - vm_compute. in_solve.
Qed.

(** The end-to-end example of the specification: 2048 samples, a buffer
    of 4096 samples, a granularity of 512 and a period of zero.  Both
    checks pass without a message and the loop is scheduled for the
    radio time rounded up plus one second. *)
Example end_to_end :
  main glibc_x86_64
    (example_vm "host" (of_Z 10) Double.zero)
    (example_host 1700000000500000000 2048)
    (example_radio (Some [0; 0; 0; 0; 0; 7]%N) 16384 512
                   1700000002000000001 all_accepted)
  = ([Print cout Started;
      Print cout (Loaded_file "wf.dat");
      Print cout (File_contains 2048);
      Call New_radio;
      Call (Set_time_now 1700000000500000000);
      Call (Set_tx_rate (of_Z 1000000));
      Call (Set_tx_freq (of_Z 100000000));
      Call (Set_tx_gain Double.zero);
      Call Get_tx_rate;
      Call Get_buffer_info;
      Call Hello;
      Call (Compute_sample_granularity 7);
      Call Get_time_now;
      Print cout (Radio_time 1700000002000000001);
      Call Get_tx_freq;
      Print cout (Using_frequency (of_Z 100000000));
      Call Get_tx_rate;
      Print cout (Using_rate (of_Z 1000000));
      Call Get_tx_gain;
      Print cout (Using_tx_gain Double.zero);
      Print cout (Using_pri Double.zero);
      Print cout (Using_duration (of_Z 10));
      Call Get_time_now;
      Print cout (Start_time 1700000004000000000);
      Call (Put_tx_data (repeat (0, 0) 2048));
      Call (Tx_loop 1700000004000000000 2048 0 0);
      Sleep_until 1700000014100000000;
      Print cout Transmit_complete],
     Status 0).
Proof. vm_compute. reflexivity. Qed.


(** * Further properties *)

(** ** Lines and delimiters *)

Lemma read_until_line delim l rest :
  occurs delim l = false ->
  read_until (l ++ String delim rest) delim = (l, rest).
Proof.
  induction l as [|a l IH]; simpl.
  - intros _. unfold ascii_eqb. now rewrite Ascii.eqb_refl.
  - intros H. apply orb_false_iff in H. destruct H as [Ha Hl].
    rewrite Ha, (IH Hl). reflexivity.
Qed.

Lemma read_until_no_delim delim iss :
  occurs delim (fst (read_until iss delim)) = false.
Proof.
  induction iss as [|a iss IH]; simpl; [reflexivity|].
  destruct (ascii_eqb a delim) eqn:E; [reflexivity|].
  destruct (read_until iss delim); simpl in *. now rewrite E.
Qed.

Lemma read_until_split delim iss :
  let (number, rest) := read_until iss delim in
  if occurs delim iss then iss = (number ++ String delim rest)%string
  else iss = number /\ rest = EmptyString.
Proof.
  induction iss as [|a iss IH]; simpl; [auto|].
  destruct (ascii_eqb a delim) eqn:E; simpl.
  - unfold ascii_eqb in E. apply Ascii.eqb_eq in E. now subst.
  - destruct (read_until iss delim) as [number rest].
    destruct (occurs delim iss); simpl.
    + now rewrite IH.
    + destruct IH as [-> ->]. auto.
Qed.

Lemma ends_with_occurs c s : ends_with c s = true -> occurs c s = true.
Proof.
  induction s as [|a s IH]; simpl; [discriminate|].
  destruct s as [|b s].
  - intros ->. reflexivity.
  - intros H. rewrite (IH H). apply orb_true_r.
Qed.

Lemma ends_with_after c l rest :
  rest <> EmptyString ->
  ends_with c (l ++ String c rest) = ends_with c rest.
Proof.
  intros Hr. induction l as [|a l IH]; simpl.
  - destruct rest; [contradiction|reflexivity].
  - destruct (l ++ String c rest)%string eqn:E; [destruct l; discriminate|].
    exact IH.
Qed.

Lemma ends_with_last c l : ends_with c (l ++ String c EmptyString) = true.
Proof.
  induction l as [|a l IH]; simpl.
  - unfold ascii_eqb. apply Ascii.eqb_refl.
  - destruct (l ++ String c EmptyString)%string eqn:E; [destruct l; discriminate|].
    exact IH.
Qed.

Lemma append_assoc (a b c : string) :
  ((a ++ b) ++ c = a ++ (b ++ c))%string.
Proof. induction a as [|x a IH]; simpl; [reflexivity|now rewrite IH]. Qed.

(** Reading back what was written line by line: when no line holds
    the delimiter, the successive calls of [getline] on the lines, each
    followed by the delimiter, give the lines again. *)
Lemma lines_of_written_lines delim ls :
  Forall (fun l => occurs delim l = false) ls ->
  lines delim (unlines delim ls) = ls.
Proof.
  induction 1 as [|l ls Hl Hls IH]; simpl.
  - rewrite lines_step. reflexivity.
  - rewrite lines_step. unfold getline.
    destruct (l ++ String delim (unlines delim ls))%string eqn:E.
    + destruct l; discriminate.
    + rewrite <- E, (read_until_line _ _ _ Hl), IH. reflexivity.
Qed.

(** The lines [getline] extracts never hold the delimiter, and put
    together again, each followed by the delimiter, they give the
    stream back: as it was when it is empty or ends with the delimiter,
    and with one delimiter added at its end otherwise. *)
Lemma written_lines_of_stream delim iss :
  Forall (fun l => occurs delim l = false) (lines delim iss) /\
  unlines delim (lines delim iss) =
  if ends_with delim iss || (String.length iss =? 0)%nat then iss
  else (iss ++ String delim EmptyString)%string.
Proof.
  remember (String.length iss) as n eqn:Hn.
  revert iss Hn. induction n as [n IH] using lt_wf_ind. intros iss Hn.
  subst n. rewrite lines_step.
  destruct (getline iss delim) as [[number rest]|] eqn:Hget.
  - pose proof (getline_length _ _ _ _ Hget) as Hlen.
    destruct (IH (String.length rest) ltac:(lia) rest eq_refl) as [IH1 IH2].
    assert (Hru : read_until iss delim = (number, rest))
      by (destruct iss; [discriminate|injection Hget as Hget; exact Hget]).
    assert (Hnz : (String.length iss =? 0)%nat = false)
      by (destruct iss; [discriminate|reflexivity]).
    clear Hget.
    pose proof (read_until_no_delim delim iss) as Hno.
    pose proof (read_until_split delim iss) as Hsplit.
    rewrite Hru in Hno, Hsplit. simpl in Hno.
    split; [constructor; assumption|].
    cbn [unlines]. rewrite IH2, Hnz, orb_false_r.
    destruct (occurs delim iss) eqn:Hocc.
    + subst iss. destruct rest as [|b rest'].
      * simpl. rewrite ends_with_last. reflexivity.
      * replace (String.length (String b rest') =? 0)%nat with false by reflexivity.
        rewrite orb_false_r, ends_with_after by discriminate.
        destruct (ends_with delim (String b rest')); [reflexivity|].
        rewrite append_assoc. reflexivity.
    + destruct Hsplit as [-> ->]. simpl.
      destruct (ends_with delim number) eqn:He; [|reflexivity].
      apply ends_with_occurs in He. congruence.
  - destruct iss; [|discriminate]. split; [constructor|reflexivity].
Qed.

(** A delimiter at the end of a stream ends its last line and starts
    no new one: a stream that is not empty and does not end with the
    delimiter has the same lines with the delimiter added at its
    end. *)
Lemma trailing_delimiter_adds_no_line delim iss :
  iss <> EmptyString ->
  ends_with delim iss = false ->
  lines delim (iss ++ String delim EmptyString) = lines delim iss.
Proof.
  intros Hne Hend.
  destruct (written_lines_of_stream delim iss) as [Hno Hun].
  rewrite Hend in Hun.
  replace (String.length iss =? 0)%nat with false in Hun
    by (destruct iss; [contradiction|reflexivity]).
  simpl in Hun. rewrite <- Hun. apply lines_of_written_lines. exact Hno.
Qed.

(** ** The bracketed-list parser, further *)

Lemma parse_numbers_convert_all pl delim iss ret :
  parse_numbers pl delim iss ret = convert_all pl (lines delim iss) ret.
Proof.
  remember (String.length iss) as n eqn:Hn.
  revert iss Hn ret. induction n as [n IH] using lt_wf_ind. intros iss Hn ret.
  rewrite parse_numbers_step, lines_step.
  destruct (getline iss delim) as [[number rest]|] eqn:Hget; [|reflexivity].
  pose proof (getline_length _ _ _ _ Hget) as Hlen. simpl.
  destruct (stod pl (c_str number)); try reflexivity.
  apply (IH (String.length rest)); [lia|reflexivity].
Qed.

Lemma convert_all_first_failure pl pre number post ret :
  Forall (convertible pl) pre ->
  exists ret',
    convert_all pl (pre ++ number :: post) ret =
    convert_all pl (number :: post) ret'.
Proof.
  intros Hpre. revert ret. induction Hpre as [|t pre [x Hx] _ IH]; intros ret.
  - exists ret. reflexivity.
  - simpl. unfold converts in Hx. rewrite Hx. apply IH.
Qed.

Lemma length_append (a b : string) :
  String.length (a ++ b) = (String.length a + String.length b)%nat.
Proof. induction a as [|c a IH]; simpl; [reflexivity|now rewrite IH]. Qed.

Lemma get_append_end (a : string) c :
  String.get (String.length a) (a ++ String c EmptyString) = Some c.
Proof. induction a as [|x a IH]; simpl; [reflexivity|exact IH]. Qed.

Lemma substring_append_start (a b : string) :
  String.substring 0 (String.length a) (a ++ b) = a.
Proof.
  induction a as [|x a IH]; simpl.
  - destruct b; reflexivity.
  - now rewrite IH.
Qed.

(** A string made of the bracket [l], the text [s] and the bracket [r]:
    its length, its ends and its interior. *)
Lemma bracketed_shape l r s :
  let lst := String l (s ++ String r EmptyString) in
  String.length lst = (String.length s + 2)%nat /\
  String.get 0 lst = Some l /\
  String.get (String.length lst - 1) lst = Some r /\
  interior lst = s.
Proof.
  cbv zeta. unfold interior. cbn [String.length].
  rewrite length_append. cbn [String.length].
  replace (S (String.length s + 1) - 1)%nat with (S (String.length s)) by lia.
  replace (S (String.length s + 1) - 2)%nat with (String.length s) by lia.
  repeat split.
  - lia.
  - cbn [String.get]. apply get_append_end.
  - cbn [String.substring]. apply substring_append_start.
Qed.

Lemma bracketed_enclosed l r s :
  In (l, r) bracket_pairs -> enclosed (String l (s ++ String r EmptyString)).
Proof.
  intros Hin. destruct (bracketed_shape l r s) as [Hlen [H0 [Hlast _]]].
  split; [lia|]. exists l, r. auto.
Qed.

Lemma join_unlines delim t ts :
  (join delim (t :: ts) ++ String delim EmptyString)%string
  = unlines delim (t :: ts).
Proof.
  revert t. induction ts as [|u ts IH]; intros t.
  - reflexivity.
  - change (join delim (t :: u :: ts))
      with (t ++ String delim (join delim (u :: ts)))%string.
    rewrite append_assoc. cbn [append unlines]. rewrite IH. reflexivity.
Qed.

Lemma ends_with_no_occurrence c s : occurs c s = false -> ends_with c s = false.
Proof.
  intros H. destruct (ends_with c s) eqn:E; [|reflexivity].
  apply ends_with_occurs in E. congruence.
Qed.

Lemma join_shape delim t ts :
  Forall (fun t => occurs delim t = false /\ t <> EmptyString) (t :: ts) ->
  join delim (t :: ts) <> EmptyString /\
  ends_with delim (join delim (t :: ts)) = false.
Proof.
  revert t. induction ts as [|u ts IH]; intros t Hall.
  - inversion Hall as [|? ? [Hocc Hne] _]; subst. simpl.
    split; [assumption|]. now apply ends_with_no_occurrence.
  - inversion Hall as [|? ? [Hocc Hne] Hrest]; subst.
    destruct (IH u Hrest) as [Hj He].
    change (join delim (t :: u :: ts))
      with (t ++ String delim (join delim (u :: ts)))%string.
    split; [destruct t; discriminate|].
    rewrite ends_with_after by assumption. exact He.
Qed.

Lemma lines_join delim ts :
  Forall (fun t => occurs delim t = false /\ t <> EmptyString) ts ->
  lines delim (join delim ts) = ts.
Proof.
  intros Hall. destruct ts as [|t ts].
  - simpl. rewrite lines_step. reflexivity.
  - destruct (join_shape delim t ts Hall) as [Hne Hend].
    rewrite <- (trailing_delimiter_adds_no_line delim _ Hne Hend).
    rewrite join_unlines. apply lines_of_written_lines.
    eapply Forall_impl; [|exact Hall]. now intros a [Ha _].
Qed.

(** X1. The parser returns a sequence exactly when the string is
    enclosed in a matching pair of brackets and [stod] converts every
    line that [getline] finds between the brackets; the sequence then
    holds the converted values in the order of the lines, and nothing
    is printed. *)
Theorem bracketed_list_parsed_iff pl lst delim t xs :
  interpret_bracketed_list pl lst delim = (t, Returned xs) <->
  t = [] /\ enclosed lst /\
  Forall2 (converts pl) (lines delim (interior lst)) xs.
Proof. apply interpret_bracketed_list_returned. Qed.

(** X2. A string that is not enclosed in a matching pair of brackets is
    rejected with one message on [cerr] and [exit(1)], before any number
    is converted: the message says the string cannot be interpreted when
    it has fewer than two characters, and that no matching brackets are
    found otherwise. *)
Theorem unenclosed_list_is_rejected pl lst delim :
  ~ enclosed lst ->
  interpret_bracketed_list pl lst delim =
  ([Print cerr (if (String.length lst <? 2)%nat
                then Bracketed_cannot_interpret lst
                else Bracketed_no_matching_brackets lst)],
   Exited 1).
Proof.
  intros Hne. unfold interpret_bracketed_list.
  destruct (String.length lst <? 2)%nat eqn:Hlen; [reflexivity|].
  apply Nat.ltb_ge in Hlen.
  pose proof (find_bracket_enclosed lst Hlen) as Hfind.
  destruct (Nat.eqb_spec
              (find_bracket (seq 0 (String.length left_brackets)) lst)
              (String.length left_brackets)) as [Heq|Hneq]; [reflexivity|].
  apply Hfind in Hneq. contradiction.
Qed.

Lemma unenclosed_list_is_rejected_witness :
  interpret_bracketed_list glibc_x86_64 "{1,2]" "," =
  ([Print cerr (Bracketed_no_matching_brackets "{1,2]")], Exited 1).
Proof.
  apply (unenclosed_list_is_rejected glibc_x86_64 "{1,2]" ",").
  intros [_ [l [r [Hin [[= <-] [= <-]]]]]].
  simpl in Hin. destruct Hin as [[= ]|[[= ]|[[= ]|[]]]].
Defined.

(** X3. The first line that [stod] does not convert decides how the
    parser ends, whatever follows it: when [stod] finds no number in it,
    the parser prints that line and calls [exit(1)]; when its value is
    out of range, the exception of [stod] leaves the parser.  The
    numbers converted before it are lost. *)
Theorem first_unconverted_line_decides pl lst delim pre number post :
  enclosed lst ->
  lines delim (interior lst) = pre ++ number :: post ->
  Forall (convertible pl) pre ->
  (stod pl (c_str number) = Stod_invalid_argument ->
   interpret_bracketed_list pl lst delim =
   ([Print cerr (Bracketed_cannot_interpret number)], Exited 1)) /\
  (stod pl (c_str number) = Stod_out_of_range ->
   interpret_bracketed_list pl lst delim =
   ([], Thrown (Out_of_range "stod"))).
Proof.
  intros Henc Hlines Hpre.
  assert (Hrun : interpret_bracketed_list pl lst delim =
                 convert_all pl (lines delim (interior lst)) []).
  { unfold interpret_bracketed_list.
    destruct Henc as [Hlen Hpair].
    replace (String.length lst <? 2)%nat with false
      by (symmetry; apply Nat.ltb_ge; exact Hlen).
    pose proof (find_bracket_enclosed lst Hlen) as Hfind.
    destruct (Nat.eqb_spec
                (find_bracket (seq 0 (String.length left_brackets)) lst)
                (String.length left_brackets)) as [Heq|Hneq].
    - exfalso. apply (proj2 Hfind); [split; assumption|exact Heq].
    - apply parse_numbers_convert_all. }
  rewrite Hrun, Hlines.
  destruct (convert_all_first_failure pl pre number post [] Hpre) as [ret' ->].
  split; intros Hs; simpl; rewrite Hs; reflexivity.
Qed.

Lemma first_unconverted_line_decides_witness :
  interpret_bracketed_list glibc_x86_64 "[1,x,1e999]" "," =
  ([Print cerr (Bracketed_cannot_interpret "x")], Exited 1).
Proof.
  destruct (first_unconverted_line_decides glibc_x86_64 "[1,x,1e999]" ","
              ["1"%string] "x" ["1e999"%string]) as [Hinv _].
  - apply (bracketed_enclosed "[" "]" "1,x,1e999"). simpl. auto.
  - vm_compute. reflexivity.
  - constructor; [|constructor]. eexists. vm_compute. reflexivity.
  - apply Hinv. reflexivity.
Defined.

(** X4. Every well-formed list is parsed to its values: for a matching
    pair of brackets around tokens that are separated by the delimiter,
    none of them empty or holding the delimiter, each converted by
    [stod], the parser returns the values of the tokens in order. *)
Theorem well_formed_list_is_parsed pl delim l r ts xs :
  In (l, r) bracket_pairs ->
  Forall (fun t => occurs delim t = false /\ t <> EmptyString) ts ->
  Forall2 (converts pl) ts xs ->
  interpret_bracketed_list pl
    (String l (join delim ts ++ String r EmptyString)) delim
  = ([], Returned xs).
Proof.
  intros Hin Hts Hxs. apply interpret_bracketed_list_returned.
  split; [reflexivity|]. split; [now apply bracketed_enclosed|].
  destruct (bracketed_shape l r (join delim ts)) as [_ [_ [_ ->]]].
  rewrite lines_join by assumption. exact Hxs.
Qed.

Lemma well_formed_list_is_parsed_witness :
  interpret_bracketed_list glibc_x86_64
    (String "(" (join "," ["0.5"; "-2"]%string ++ String ")" EmptyString)) ","
  = ([], Returned [Double.div (of_Z 1) (of_Z 2); of_Z (-2)]).
Proof.
  apply (well_formed_list_is_parsed glibc_x86_64 "," "(" ")"
           ["0.5"; "-2"]%string).
  - simpl. auto.
  - repeat constructor; discriminate.
  - repeat constructor.
Defined.

(** X5. A delimiter after the last token is accepted and changes
    nothing: the list with it is parsed as the list without it. *)
Theorem trailing_delimiter_is_ignored pl delim l r s :
  In (l, r) bracket_pairs ->
  s <> EmptyString ->
  ends_with delim s = false ->
  interpret_bracketed_list pl
    (String l ((s ++ String delim EmptyString) ++ String r EmptyString)) delim
  = interpret_bracketed_list pl (String l (s ++ String r EmptyString)) delim.
Proof.
  intros Hin Hne Hend.
  assert (Hrun : forall u,
            interpret_bracketed_list pl (String l (u ++ String r EmptyString)) delim
            = convert_all pl (lines delim u) []).
  { intros u. unfold interpret_bracketed_list.
    pose proof (bracketed_enclosed l r u Hin) as [Hlen Hpair].
    replace (String.length (String l (u ++ String r EmptyString)) <? 2)%nat
      with false by (symmetry; apply Nat.ltb_ge; exact Hlen).
    pose proof (find_bracket_enclosed _ Hlen) as Hfind.
    destruct (Nat.eqb_spec
                (find_bracket (seq 0 (String.length left_brackets))
                   (String l (u ++ String r EmptyString)))
                (String.length left_brackets)) as [Heq|Hneq].
    - exfalso. apply (proj2 Hfind); [split; assumption|exact Heq].
    - destruct (bracketed_shape l r u) as [_ [_ [_ Hint]]].
      unfold interior in Hint. rewrite Hint.
      apply parse_numbers_convert_all. }
  rewrite !Hrun, trailing_delimiter_adds_no_line by assumption. reflexivity.
Qed.

Lemma trailing_delimiter_is_ignored_witness :
  interpret_bracketed_list glibc_x86_64 "[1,2,]" ","
  = interpret_bracketed_list glibc_x86_64 "[1,2]" ",".
Proof.
  apply (trailing_delimiter_is_ignored glibc_x86_64 "," "[" "]" "1,2").
  - simpl. auto.
  - discriminate.
  - reflexivity.
Defined.

(** ** Clock synchronisation, further *)

(** X6. With the time source [pps] and a host clock past the epoch that
    is not on a whole second, the time sent with [set_time_next_pps] is
    a whole second that lies more than 200 ms and at most 1200 ms after
    the clock reading; before sending it the program sleeps until 200 ms
    ahead of that second, a time that is still to come. *)
Theorem pps_lead_time vm h radio ts :
  vm_time_source vm = Some ts ->
  string_tolower ts = "pps"%string ->
  0 <= system_clock_now h ->
  system_clock_now h mod ns_per_s <> 0 ->
  exists t_set err,
    set_common_options vm h radio =
      (Sleep_until (t_set - ms_to_ns 200)
       :: Call (Set_time_next_pps t_set) :: err, Returned 0) /\
    t_set mod ns_per_s = 0 /\
    ms_to_ns 200 < t_set - system_clock_now h <= ms_to_ns 1200.
Proof.
  intros Hts Hpps Hpos Hfrac. unfold set_common_options.
  rewrite Hts, Hpps. simpl String.eqb. cbv iota.
  set (now := system_clock_now h) in *.
  fold (host_msecs now). rewrite (host_msecs_since_epoch now Hpos).
  pose proof (ceil_seconds_bounds now) as Hceil.
  pose proof (Z.div_mod now ns_per_s ltac:(discriminate)) as Hdm.
  pose proof (Z.mod_pos_bound now ns_per_s ltac:(reflexivity)) as Hr.
  set (r := now mod ns_per_s) in *. set (q := now / ns_per_s) in *.
  assert (Hc : ceil_seconds now = q + 1).
  { unfold s_to_ns, ns_per_s in *. nia. }
  pose proof (Z.div_mod r ns_per_ms ltac:(discriminate)) as Hdm'.
  pose proof (Z.mod_pos_bound r ns_per_ms ltac:(reflexivity)) as Hr'.
  set (ms := r / ns_per_ms) in *.
  unfold max_host_clock_error_ms.
  destruct (Z.ltb_spec ms (1000 - 200)) as [Hms|Hms].
  - exists (s_to_ns (ceil_seconds now)).
    exists (if set_time_next_pps radio (s_to_ns (ceil_seconds now)) then []
            else [Print cerr Error_set_time_next_pps]).
    split; [unfold bind, emit, ask, print, pure;
            destruct (set_time_next_pps radio _); reflexivity|].
    rewrite Hc. unfold s_to_ns, ms_to_ns, ns_per_s, ns_per_ms in *.
    split; [apply Z.mod_mul; discriminate|lia].
  - exists (s_to_ns (ceil_seconds now + 1)).
    exists (if set_time_next_pps radio (s_to_ns (ceil_seconds now + 1)) then []
            else [Print cerr Error_set_time_next_pps]).
    split; [unfold bind, emit, ask, print, pure;
            destruct (set_time_next_pps radio _); reflexivity|].
    rewrite Hc. unfold s_to_ns, ms_to_ns, ns_per_s, ns_per_ms in *.
    split; [apply Z.mod_mul; discriminate|lia].
Qed.

Lemma pps_lead_time_witness :
  exists t_set err,
    set_common_options
      (example_vm "Pps" (of_Z 10) Double.zero)
      (example_host 1700000000900000000 2048)
      (example_radio None 16384 512 1700000002000000001 all_accepted) =
      (Sleep_until (t_set - ms_to_ns 200)
       :: Call (Set_time_next_pps t_set) :: err, Returned 0) /\
    t_set mod ns_per_s = 0 /\
    ms_to_ns 200 < t_set - 1700000000900000000 <= ms_to_ns 1200.
Proof.
  apply (pps_lead_time
           (example_vm "Pps" (of_Z 10) Double.zero)
           (example_host 1700000000900000000 2048)
           (example_radio None 16384 512 1700000002000000001 all_accepted)
           "Pps"); [reflexivity|reflexivity|discriminate|discriminate].
Defined.

(** X7. With the time source [pps] and a host clock that reads a whole
    second, the time sent with [set_time_next_pps] is that very second,
    not a later one, and the time the program sleeps until is 200 ms in
    the past. *)
Theorem pps_on_a_whole_second vm h radio ts :
  vm_time_source vm = Some ts ->
  string_tolower ts = "pps"%string ->
  system_clock_now h mod ns_per_s = 0 ->
  set_common_options vm h radio =
    (Sleep_until (system_clock_now h - ms_to_ns 200)
     :: Call (Set_time_next_pps (system_clock_now h))
     :: (if set_time_next_pps radio (system_clock_now h) then []
         else [Print cerr Error_set_time_next_pps]),
     Returned 0).
Proof.
  intros Hts Hpps Hwhole. unfold set_common_options.
  rewrite Hts, Hpps. simpl String.eqb. cbv iota.
  set (now := system_clock_now h) in *.
  pose proof (Z.div_mod now ns_per_s ltac:(discriminate)) as Hdm.
  rewrite Hwhole, Z.add_0_r in Hdm.
  pose proof (ceil_seconds_bounds now) as Hceil.
  pose proof (floor_seconds_bounds now) as Hfloor.
  set (q := now / ns_per_s) in *.
  assert (Hc : ceil_seconds now = q)
    by (unfold s_to_ns, ns_per_s in *; nia).
  assert (Hf : floor_seconds now = q)
    by (unfold s_to_ns, ns_per_s in *; nia).
  assert (Hms : duration_cast_ms now = q * 1000).
  { unfold duration_cast_ms. rewrite Hdm.
    replace (ns_per_s * q) with (q * 1000 * ns_per_ms)
      by (unfold ns_per_s, ns_per_ms; ring).
    apply Z.quot_mul. discriminate. }
  rewrite Hf, Hms, Hc. unfold s_to_ms, ms_per_s.
  replace (q * 1000 - q * 1000) with 0 by ring.
  unfold max_host_clock_error_ms.
  change (0 <? 1000 - 200) with true. cbv iota.
  replace (s_to_ns q) with now by (unfold s_to_ns; lia).
  unfold bind, emit, ask, print, pure.
  destruct (set_time_next_pps radio now); reflexivity.
Qed.

Lemma pps_on_a_whole_second_witness :
  set_common_options
    (example_vm "pps" (of_Z 10) Double.zero)
    (example_host 1700000000000000000 2048)
    (example_radio None 16384 512 1700000002000000001 all_accepted) =
  ([Sleep_until 1699999999800000000;
    Call (Set_time_next_pps 1700000000000000000)],
   Returned 0).
Proof.
  exact (pps_on_a_whole_second
           (example_vm "pps" (of_Z 10) Double.zero)
           (example_host 1700000000000000000 2048)
           (example_radio None 16384 512 1700000002000000001 all_accepted)
           "pps" eq_refl eq_refl eq_refl).
Defined.

(** ** The settings of the transmitter *)

Lemma snd_bind {A B} (m : prog A) (f : A -> prog B) :
  snd (bind m f) =
  match snd m with
  | Returned a => snd (f a)
  | Exited s => Exited s
  | Thrown e => Thrown e
  | Undefined => Undefined
  end.
Proof.
  destruct m as [t [a|s|e|]]; try reflexivity.
  simpl. destruct (f a); reflexivity.
Qed.

Lemma find_tx_port_returns radio tx_ant n :
  exists b, snd (find_tx_port radio tx_ant n) = Returned b.
Proof.
  remember (ports_left n) as k eqn:Hk. revert n Hk.
  induction k as [k IH] using (well_founded_induction N.lt_wf_0).
  intros n Hk. rewrite find_tx_port_step.
  destruct (n <? to_unsigned _)%N eqn:Hlt; [|eexists; reflexivity].
  pose proof (ports_left_step _ _ Hlt) as Hstep.
  destruct (IH (ports_left (n + 1)) ltac:(subst k; exact Hstep) (n + 1)%N eq_refl)
    as [b Hb].
  rewrite !snd_bind. cbn [snd emit ask].
  destruct (String.eqb _ tx_ant); [|eauto].
  rewrite snd_bind. cbn [snd ask].
  destruct (set_tx_port radio n); [eexists; reflexivity|eauto].
Qed.

Lemma find_tx_port_calls radio tx_ant n :
  Forall (fun e => port_event e = true) (fst (find_tx_port radio tx_ant n)).
Proof.
  remember (ports_left n) as k eqn:Hk. revert n Hk.
  induction k as [k IH] using (well_founded_induction N.lt_wf_0).
  intros n Hk. rewrite find_tx_port_step.
  destruct (n <? to_unsigned _)%N eqn:Hlt.
  - pose proof (ports_left_step _ _ Hlt) as Hstep.
    assert (Hrec : Forall (fun e => port_event e = true)
                     (fst (find_tx_port radio tx_ant (n + 1)%N)))
      by (apply (IH (ports_left (n + 1))); [subst k; exact Hstep|reflexivity]).
    apply bind_trace_Forall; [repeat constructor|]. intros _ _.
    apply bind_trace_Forall; [repeat constructor|]. intros name _.
    destruct (String.eqb _ tx_ant); [|exact Hrec].
    apply bind_trace_Forall; [repeat constructor|]. intros [|] _;
      [constructor|exact Hrec].
  - repeat constructor.
Qed.

(** Two sequences of statements end the same way when their first
    statements do and their continuations do. *)
Lemma seq_outcome {B} (m m' : prog unit) (k k' : prog B) :
  snd m = snd m' -> snd k = snd k' -> snd (m ;; k) = snd (m' ;; k').
Proof.
  intros Hm Hk. rewrite !snd_bind, <- Hm.
  destruct (snd m) as [[]| | |]; auto.
Qed.

(** How one statement of an option function ends, the answers of the
    radio being arbitrary. *)
Ltac statement_outcome :=
  repeat first
    [ rewrite snd_bind
    | progress cbn [snd fst ask print emit pure exit throw negb]
    | match goal with
      | |- context [snd (find_tx_port ?r ?a ?n)] =>
          let b := fresh "b" in
          let Hb := fresh "Hb" in
          destruct (find_tx_port_returns r a n) as [b Hb]; rewrite Hb
      | |- context [snd (interpret_bracketed_list ?p ?s ?d)] =>
          let xs := fresh "xs" in
          let msg := fresh "msg" in
          destruct (interpret_bracketed_list_outcomes p s d)
            as [[xs ->]|[[msg ->]|[_ [_ ->]]]]
      | |- context [match ?x with _ => _ end] =>
          lazymatch x with
          | snd _ => fail
          | _ => destruct x
          end
      | |- context [match snd ?x with _ => _ end] => destruct (snd x)
      end ];
  try reflexivity.

Lemma seq_ends {B} (P : outcome B -> Prop) (m : prog unit) (k : prog B) :
  snd m = Returned tt \/ snd m = Exited 1 \/
  snd m = Thrown (Out_of_range "stod") ->
  P (Exited 1) -> P (Thrown (Out_of_range "stod")) -> P (snd k) ->
  P (snd (m ;; k)).
Proof.
  intros [Hm|[Hm|Hm]] He Ht Hk; rewrite snd_bind, Hm; assumption.
Qed.

Lemma set_common_options_ends vm h radio :
  options_end (snd (set_common_options vm h radio)) 0.
Proof. unfold options_end, set_common_options. statement_outcome; auto. Qed.

Lemma set_network_options_ends vm radio :
  options_end (snd (set_network_options vm radio)) 0.
Proof. unfold options_end, set_network_options. statement_outcome; auto. Qed.

Lemma set_tx_1ch_options_ends pl vm radio :
  options_end (snd (set_tx_1ch_options pl vm radio)) 0.
Proof.
  unfold options_end, set_tx_1ch_options.
  repeat (apply seq_ends; [statement_outcome; auto|auto|auto|]). auto.
Qed.

(** X8. How the three functions that apply the options end depends on
    the options alone: whatever the radio answers, a setting it rejects
    is reported and the function goes on.  Each of them returns 0,
    calls [exit(1)], or is left by the exception of [stod]. *)
Theorem rejected_settings_are_not_fatal pl vm h radio radio' :
  (snd (set_common_options vm h radio) = snd (set_common_options vm h radio') /\
   options_end (snd (set_common_options vm h radio)) 0) /\
  (snd (set_network_options vm radio) = snd (set_network_options vm radio') /\
   options_end (snd (set_network_options vm radio)) 0) /\
  (snd (set_tx_1ch_options pl vm radio) = snd (set_tx_1ch_options pl vm radio') /\
   options_end (snd (set_tx_1ch_options pl vm radio)) 0).
Proof.
  split; [|split]; (split; [|auto using set_common_options_ends,
                               set_network_options_ends,
                               set_tx_1ch_options_ends]).
  - unfold set_common_options. apply seq_outcome; [|reflexivity].
    statement_outcome.
  - unfold set_network_options. apply seq_outcome; [|reflexivity].
    statement_outcome.
  - unfold set_tx_1ch_options.
    repeat (apply seq_outcome; [statement_outcome|]). reflexivity.
Qed.

(** An event of a computation is an event of one of its statements:
    [in_prog H] makes a case for each statement the event [H] can come
    from, down to the calls and the output statements. *)
Ltac in_prog H :=
  lazymatch type of H with
  | In _ (fst (bind _ _)) =>
      let a := fresh "a" in
      let Ha := fresh "Ha" in
      apply bind_trace_In in H; destruct H as [H|[a [Ha H]]]; in_prog H
  | In _ (fst (if ?c then _ else _)) =>
      let Hc := fresh "Hc" in destruct c eqn:Hc; in_prog H
  | In _ (fst (match ?o with Some _ => _ | None => _ end)) =>
      let Ho := fresh "Ho" in destruct o eqn:Ho; in_prog H
  | In _ (fst (find_tx_port _ _ _)) => idtac
  | In _ (fst (interpret_bracketed_list _ _ _)) => idtac
  | In _ (fst _) =>
      unfold ask, print, emit, pure, exit, throw in H; cbn [fst] in H;
      repeat (destruct H as [H|H]); [..|destruct H]
  end.

(** The events the parser and the port search cannot perform. *)
Ltac not_from_callee H :=
  lazymatch type of H with
  | In _ (fst (find_tx_port ?r ?a ?n)) =>
      let F := fresh "F" in
      pose proof (find_tx_port_calls r a n) as F;
      rewrite Forall_forall in F; apply F in H; discriminate H
  | In _ (fst (interpret_bracketed_list ?p ?s ?d)) =>
      let xs := fresh "xs" in
      let msg := fresh "msg" in
      let E := fresh "E" in
      destruct (interpret_bracketed_list_outcomes p s d)
        as [[xs E]|[[msg E]|[_ [_ E]]]];
      rewrite E in H; cbn [fst] in H;
      repeat (destruct H as [H|H]; [discriminate H|]); destruct H
  | _ = _ => discriminate H
  end.

(** X9. The sample rate and the centre frequency sent to the radio are
    those of the global options [rate] and [freq] whenever these are
    given, and those of [tx_rate] and [tx_freq] only when they are not:
    no other value is ever sent. *)
Theorem global_options_override pl vm radio x :
  (In (Call (Set_tx_rate x)) (fst (set_tx_1ch_options pl vm radio)) ->
   overridden (vm_rate vm) (vm_tx_rate vm) = Some x) /\
  (In (Call (Set_tx_freq x)) (fst (set_tx_1ch_options pl vm radio)) ->
   overridden (vm_freq vm) (vm_tx_freq vm) = Some x).
Proof.
  split; intros H; unfold set_tx_1ch_options in H; in_prog H;
    try (not_from_callee H; fail);
    injection H as <-; reflexivity.
Qed.

Lemma global_options_override_witness :
  overridden (vm_rate example_tx_vm) (vm_tx_rate example_tx_vm)
  = Some (of_Z 1000000).
Proof.
  apply (proj1 (global_options_override glibc_x86_64 example_tx_vm
                  (example_radio None 16384 512 1700000002000000001 all_accepted)
                  (of_Z 1000000))).
  vm_compute. left. reflexivity.
Defined.

Lemma interpret_bracketed_list_messages pl lst delim :
  Forall (fun e => parser_event e = true)
         (fst (interpret_bracketed_list pl lst delim)).
Proof.
  unfold interpret_bracketed_list.
  destruct (String.length lst <? 2)%nat; [repeat constructor|].
  destruct (_ =? _)%nat; [repeat constructor|].
  destruct (parse_numbers_failed pl delim
              (String.substring 1 (String.length lst - 2) lst) [])
    as [[xs ->]|[[nb [_ [_ ->]]]|[nb [_ [_ ->]]]]]; repeat constructor.
Qed.

(** An event that is neither of the port search nor of the parser. *)
Ltac not_of_callee H :=
  lazymatch type of H with
  | In _ (fst (find_tx_port ?r ?a ?n)) =>
      let F := fresh "F" in
      pose proof (find_tx_port_calls r a n) as F;
      rewrite Forall_forall in F; apply F in H; discriminate H
  | In _ (fst (interpret_bracketed_list ?p ?s ?d)) =>
      let F := fresh "F" in
      pose proof (interpret_bracketed_list_messages p s d) as F;
      rewrite Forall_forall in F; apply F in H; discriminate H
  | _ = _ => discriminate H
  end.

(** What is known of the list of an I/Q option that was parsed. *)
Ltac parsed_list :=
  match goal with
  | Hs : snd (interpret_bracketed_list ?p ?s ?d) = Returned ?a |- _ =>
      let t := fresh "t" in
      let o := fresh "o" in
      let E := fresh "E" in
      let E' := fresh "E" in
      destruct (interpret_bracketed_list p s d) as [t o] eqn:E;
      cbn [snd] in Hs; subst o;
      pose proof E as E';
      apply interpret_bracketed_list_returned in E';
      destruct E' as [-> _]
  end.


Lemma iq_setting_sent pl vm radio y :
  (In (Call (Set_tx_iq_bias y)) (fst (set_tx_1ch_options pl vm radio)) ->
   List.length y = 2%nat /\
   exists s, vm_tx_iq_bias vm = Some s /\
     interpret_bracketed_list pl s "," = ([], Returned y)) /\
  (In (Call (Set_tx_iq_corr y)) (fst (set_tx_1ch_options pl vm radio)) ->
   List.length y = 4%nat /\
   exists s, vm_tx_iq_corr vm = Some s /\
     interpret_bracketed_list pl s "," = ([], Returned y)).
Proof.
  split; intros H; unfold set_tx_1ch_options in H; in_prog H;
    try (not_of_callee H; fail).
  all: apply Bool.negb_false_iff, Nat.eqb_eq in Hc.
  all: match type of H with
       | Call (_ ?l) = _ =>
           assert (Hy : l = y) by congruence; clear H;
           rewrite firstn_all2 in Hy by lia; subst y
       end.
  all: parsed_list.
  all: split; [assumption|eexists; split; [reflexivity|assumption]].
Qed.

(** X10. The I/Q bias sent to the radio is a list of exactly two numbers
    and the I/Q correction one of exactly four, each being all that
    the parser returns for the text of the option; a list of another
    length is never sent, not even in part. *)
Theorem iq_settings_have_their_arity pl vm radio y :
  (In (Call (Set_tx_iq_bias y)) (fst (set_tx_1ch_options pl vm radio)) ->
   List.length y = 2%nat /\
   exists s, vm_tx_iq_bias vm = Some s /\
     interpret_bracketed_list pl s "," = ([], Returned y)) /\
  (In (Call (Set_tx_iq_corr y)) (fst (set_tx_1ch_options pl vm radio)) ->
   List.length y = 4%nat /\
   exists s, vm_tx_iq_corr vm = Some s /\
     interpret_bracketed_list pl s "," = ([], Returned y)).
Proof. exact (iq_setting_sent pl vm radio y). Qed.

Lemma iq_settings_have_their_arity_witness :
  List.length [Double.div (of_Z 1) (of_Z 2); of_Z (-2)] = 2%nat /\
  exists s, vm_tx_iq_bias example_tx_vm = Some s /\
    interpret_bracketed_list glibc_x86_64 s "," =
    ([], Returned [Double.div (of_Z 1) (of_Z 2); of_Z (-2)]).
Proof.
  apply (proj1 (iq_settings_have_their_arity glibc_x86_64 example_tx_vm
                  (example_radio None 16384 512 1700000002000000001 all_accepted)
                  [Double.div (of_Z 1) (of_Z 2); of_Z (-2)])).
  vm_compute. in_solve.
Defined.

(** ** The port search *)

(** The search from port [n0] on: it stops at some port [n], having
    asked the name of every port before it, none of which could be
    selected; it has selected [n], or the radio has reported that there
    is no port [n]. *)
Lemma find_tx_port_stops radio tx_ant n0 :
  exists n b t,
    (n0 <= n)%N /\
    find_tx_port radio tx_ant n0 = (t, Returned b) /\
    (forall m, (n0 <= m < n)%N ->
       (m < tx_num_ports radio m)%N /\ ~ port_selectable radio tx_ant m /\
       In (Call (Get_tx_port_name m)) t) /\
    if b then
      (n < tx_num_ports radio n)%N /\ port_selectable radio tx_ant n /\
      exists t', t = t' ++ [Call (Set_tx_port n)]
    else (tx_num_ports radio n <= n)%N.
Proof.
  remember (ports_left n0) as k eqn:Hk. revert n0 Hk.
  induction k as [k IH] using (well_founded_induction N.lt_wf_0).
  intros n0 Hk. rewrite find_tx_port_step. fold (tx_num_ports radio n0).
  destruct (n0 <? tx_num_ports radio n0)%N eqn:Hlt.
  - pose proof (ports_left_step _ _ Hlt) as Hstep.
    apply N.ltb_lt in Hlt.
    destruct (IH (ports_left (n0 + 1)) ltac:(subst k; exact Hstep)
                 (n0 + 1)%N eq_refl)
      as [n [b [t [Hle [Hrun [Hbefore Hat]]]]]].
    assert (Hnext : forall pre,
              ~ port_selectable radio tx_ant n0 ->
              let t' :=
                Call Get_tx_num_ports :: Call (Get_tx_port_name n0) :: pre ++ t in
              (forall m, (n0 <= m < n)%N ->
                 (m < tx_num_ports radio m)%N /\
                 ~ port_selectable radio tx_ant m /\
                 In (Call (Get_tx_port_name m)) t') /\
              if b then
                (n < tx_num_ports radio n)%N /\
                port_selectable radio tx_ant n /\
                exists t'', t' = t'' ++ [Call (Set_tx_port n)]
              else (tx_num_ports radio n <= n)%N).
    { intros pre Hno t'. split.
      - intros m Hm. destruct (N.eq_dec m n0) as [->|Hne].
        + split; [assumption|]. split; [assumption|]. right; left; reflexivity.
        + destruct (Hbefore m ltac:(lia)) as [H1 [H2 H3]].
          split; [assumption|]. split; [assumption|].
          right; right. apply in_or_app. now right.
      - destruct b; [|assumption].
        destruct Hat as [H1 [H2 [t'' ->]]].
        split; [assumption|]. split; [assumption|].
        exists (Call Get_tx_num_ports :: Call (Get_tx_port_name n0) :: pre ++ t'').
        unfold t'. cbn [app]. rewrite app_assoc. reflexivity. }
    unfold emit, ask, pure. cbn [bind app].
    destruct (String.eqb (value_or (get_tx_port_name radio n0) EmptyString) tx_ant)
      eqn:Hname.
    + cbn [bind app]. destruct (set_tx_port radio n0) eqn:Hset.
      * exists n0, true. eexists. split; [lia|]. split; [reflexivity|].
        split; [intros m Hm; lia|].
        split; [assumption|]. split.
        -- split; [now apply String.eqb_eq|assumption].
        -- exists [Call Get_tx_num_ports; Call (Get_tx_port_name n0)].
           reflexivity.
      * rewrite Hrun. exists n, b. eexists.
        split; [lia|]. split; [reflexivity|].
        apply (Hnext [Call (Set_tx_port n0)]). intros [_ Hsel]. congruence.
    + rewrite Hrun. exists n, b. eexists.
      split; [lia|]. split; [reflexivity|].
      apply (Hnext []). intros [Hsel _].
      apply String.eqb_neq in Hname. contradiction.
  - apply N.ltb_ge in Hlt. exists n0, false. eexists.
    split; [lia|]. split; [reflexivity|]. split; [intros m Hm; lia|assumption].
Qed.

(** X11. The port search ends, and with the first port that can be
    selected: it stops at a port [n] such that every port before [n]
    was reported to exist by the radio and either had another name or
    was refused; and either the last call of the search selects [n],
    which has the name asked for, and the search succeeds, or the radio
    has reported that there is no port [n] and the search fails. *)
Theorem port_search_selects_first_match radio tx_ant :
  exists n b t,
    find_tx_port radio tx_ant 0 = (t, Returned b) /\
    (forall m, (m < n)%N ->
       (m < tx_num_ports radio m)%N /\ ~ port_selectable radio tx_ant m) /\
    if b then
      (n < tx_num_ports radio n)%N /\ port_selectable radio tx_ant n /\
      exists t', t = t' ++ [Call (Set_tx_port n)]
    else (tx_num_ports radio n <= n)%N.
Proof.
  destruct (find_tx_port_stops radio tx_ant 0)
    as [n [b [t [_ [Hrun [Hbefore Hat]]]]]].
  exists n, b, t. split; [assumption|]. split; [|assumption].
  intros m Hm. destruct (Hbefore m ltac:(lia)) as [H1 [H2 _]]. auto.
Qed.

(** X12. A radio that does not report its number of ports is searched
    as if it had [2^32 - 1] of them: when no port can be selected, the
    search fails only after asking the name of every port from 0 to
    [2^32 - 2]. *)
Theorem port_search_without_port_count radio tx_ant :
  (forall n, get_tx_num_ports radio n = None) ->
  (forall n, ~ port_selectable radio tx_ant n) ->
  exists t,
    find_tx_port radio tx_ant 0 = (t, Returned false) /\
    forall m, (m < 4294967295)%N -> In (Call (Get_tx_port_name m)) t.
Proof.
  intros Hnone Hno.
  assert (Hnum : forall n, tx_num_ports radio n = 4294967295%N)
    by (intros n; unfold tx_num_ports; rewrite Hnone; reflexivity).
  destruct (find_tx_port_stops radio tx_ant 0)
    as [n [b [t [_ [Hrun [Hbefore Hat]]]]]].
  destruct b.
  - destruct Hat as [_ [Hsel _]]. destruct (Hno n Hsel).
  - exists t. split; [assumption|]. intros m Hm.
    rewrite Hnum in Hat. apply (Hbefore m). lia.
Qed.

Lemma port_search_without_port_count_witness :
  exists t,
    find_tx_port silent_radio "TX1" 0 = (t, Returned false) /\
    forall m, (m < 4294967295)%N -> In (Call (Get_tx_port_name m)) t.
Proof.
  apply (port_search_without_port_count silent_radio "TX1").
  - reflexivity.
  - intros n [_ H]. discriminate H.
Defined.

(** ** Validation and the state of the radio, further *)










(** A list of I/Q values of the wrong length does not end the run:
    with three values for [tx_iq_bias] the error is reported, and the
    run uploads the waveform, issues the loop command and ends with
    status 0. *)
Example wrong_arity_is_not_fatal :
  In (Print cerr Tx_iq_bias_requires_2) (fst run_with_three_bias_values) /\
  uploads (fst run_with_three_bias_values) =
    [Call (Put_tx_data (repeat (0, 0) 2048));
     Call (Tx_loop 1700000004000000000 2048 0 0)] /\
  snd run_with_three_bias_values = Status 0.
Proof.
  split; [vm_compute; in_solve|]. split; vm_compute; reflexivity.
Qed.

(** ** Runs of the program, further *)

(** What is known of the way an option function ended. *)
Ltac options_ended :=
  repeat match goal with
  | Hm : set_common_options ?vm ?h ?r = (_, ?o) |- _ =>
      lazymatch o with Returned _ => fail | _ => idtac end;
      let E := fresh "E" in
      pose proof (set_common_options_ends vm h r) as E;
      rewrite Hm in E; clear Hm;
      destruct E as [E|[E|E]]; cbn [snd] in E;
      try discriminate E; injection E as ->
  | Hm : set_network_options ?vm ?r = (_, ?o) |- _ =>
      lazymatch o with Returned _ => fail | _ => idtac end;
      let E := fresh "E" in
      pose proof (set_network_options_ends vm r) as E;
      rewrite Hm in E; clear Hm;
      destruct E as [E|[E|E]]; cbn [snd] in E;
      try discriminate E; injection E as ->
  | Hm : set_tx_1ch_options ?pl ?vm ?r = (_, ?o) |- _ =>
      lazymatch o with Returned _ => fail | _ => idtac end;
      let E := fresh "E" in
      pose proof (set_tx_1ch_options_ends pl vm r) as E;
      rewrite Hm in E; clear Hm;
      destruct E as [E|[E|E]]; cbn [snd] in E;
      try discriminate E; injection E as ->
  end.

Lemma ends_in_refl s : ends_in s s.
Proof. exists []. reflexivity. Qed.

Lemma ends_in_cons e t s : ends_in t s -> ends_in (e :: t) s.
Proof. intros [t0 ->]. exists (e :: t0). reflexivity. Qed.

Lemma ends_in_app t' t s : ends_in t s -> ends_in (t' ++ t) s.
Proof. intros [t0 ->]. exists (t' ++ t0). now rewrite app_assoc. Qed.

Ltac ends_in_solve :=
  repeat first [ apply ends_in_refl | apply ends_in_cons | apply ends_in_app ].

Lemma uploads_none t :
  Forall (fun e => is_upload e = false) t -> uploads t = [].
Proof.
  unfold uploads. induction 1 as [|e t He _ IH]; simpl; [reflexivity|].
  now rewrite He.
Qed.

Lemma uploads_app t t' : uploads (t ++ t') = uploads t ++ uploads t'.
Proof. apply filter_app. Qed.

(** The uploads of an explicit trace. *)
Ltac uploads_solve :=
  repeat first
    [ rewrite uploads_app
    | match goal with
      | U : Forall (fun e => is_upload e = false) ?t |- context [uploads ?t] =>
          rewrite (uploads_none t U)
      end
    | progress cbn [app]
    | progress (unfold uploads; cbn [filter is_upload]; fold uploads) ].



(** X14. A run whose times of the end are 64-bit tick counts ends with
    status 0 only in one way: the waveform is uploaded once, then one
    loop command is issued, these being the only two such calls and the
    radio accepting the command; the program then sleeps until 100 ms
    after the start time plus the duration rounded to a millisecond, and
    reports completion. *)
Theorem successful_run pl vm h radio :
  sleep_fits pl vm radio ->
  snd (main pl vm h radio) = Status 0 ->
  exists t_start pri n_pulses,
    uploads (fst (main pl vm h radio)) =
      [Call (Put_tx_data (waveform vm h));
       Call (Tx_loop t_start (waveform_length vm h) pri n_pulses)] /\
    tx_loop radio t_start (waveform_length vm h) pri n_pulses = true /\
    ends_in (fst (main pl vm h radio))
      [Call (Tx_loop t_start (waveform_length vm h) pri n_pulses);
       Sleep_until
         (t_start
          + ms_to_ns (llround (llround_invalid pl)
                              (Double.mul (of_Z 1000) (vm_duration vm)))
          + ms_to_ns 100);
       Print cout Transmit_complete] /\
    in_int64
      (t_start
       + ms_to_ns (llround (llround_invalid pl)
                           (Double.mul (of_Z 1000) (vm_duration vm)))
       + ms_to_ns 100).
Proof.
  intros Hfit Hs. unfold sleep_fits in Hfit.
  run_main pl vm h radio; options_ended; try discriminate Hs;
    options_facts; bool_facts.
  all: do 3 eexists.
  all: split; [uploads_solve; reflexivity|].
  all: split; [eassumption|].
  all: split; [ends_in_solve|].
  all: apply (Hfit _ eq_refl).
Qed.

Lemma successful_run_witness :
  exists t_start pri n_pulses,
    uploads (fst (main glibc_x86_64
                    (example_vm "host" (of_Z 10) Double.zero)
                    (example_host 1700000000500000000 2048)
                    (example_radio (Some [0; 0; 0; 0; 0; 7]%N) 16384 512
                                   1700000002000000001 all_accepted))) =
      [Call (Put_tx_data
               (waveform (example_vm "host" (of_Z 10) Double.zero)
                         (example_host 1700000000500000000 2048)));
       Call (Tx_loop t_start
               (waveform_length (example_vm "host" (of_Z 10) Double.zero)
                                (example_host 1700000000500000000 2048))
               pri n_pulses)] /\
    tx_loop (example_radio (Some [0; 0; 0; 0; 0; 7]%N) 16384 512
                           1700000002000000001 all_accepted)
            t_start
            (waveform_length (example_vm "host" (of_Z 10) Double.zero)
                             (example_host 1700000000500000000 2048))
            pri n_pulses = true /\
    ends_in (fst (main glibc_x86_64
                    (example_vm "host" (of_Z 10) Double.zero)
                    (example_host 1700000000500000000 2048)
                    (example_radio (Some [0; 0; 0; 0; 0; 7]%N) 16384 512
                                   1700000002000000001 all_accepted)))
      [Call (Tx_loop t_start
               (waveform_length (example_vm "host" (of_Z 10) Double.zero)
                                (example_host 1700000000500000000 2048))
               pri n_pulses);
       Sleep_until
         (t_start
          + ms_to_ns (llround (llround_invalid glibc_x86_64)
                              (Double.mul (of_Z 1000)
                                 (vm_duration (example_vm "host" (of_Z 10) Double.zero))))
          + ms_to_ns 100);
       Print cout Transmit_complete] /\
    in_int64
      (t_start
       + ms_to_ns (llround (llround_invalid glibc_x86_64)
                           (Double.mul (of_Z 1000)
                              (vm_duration (example_vm "host" (of_Z 10) Double.zero))))
       + ms_to_ns 100).
Proof.
  apply (successful_run glibc_x86_64
           (example_vm "host" (of_Z 10) Double.zero)
           (example_host 1700000000500000000 2048)
           (example_radio (Some [0; 0; 0; 0; 0; 7]%N) 16384 512
                          1700000002000000001 all_accepted)).
  - intros device_now [= <-]. vm_compute.
    repeat split; discriminate.
  - vm_compute. reflexivity.
Defined.

(** ** The waveform file *)

Lemma samples_of_bytes_length n bytes :
  (sizeof_cplx16 * n <= List.length bytes)%nat ->
  List.length (samples_of_bytes n bytes) = n.
Proof.
  unfold sizeof_cplx16. revert bytes. induction n as [|n IH]; intros bytes Hlen.
  - reflexivity.
  - destruct bytes as [|b0 [|b1 [|b2 [|b3 bytes]]]]; simpl in Hlen; try lia.
    simpl. rewrite IH; [reflexivity|lia].
Qed.

Lemma samples_fit (bytes : list Byte.byte) :
  (sizeof_cplx16 * (List.length bytes / sizeof_cplx16) <= List.length bytes)%nat.
Proof. apply Nat.Div0.mul_div_le. Qed.

(** What [read_cplx_16] leaves in the vector when the file is opened:
    the samples of the file, then zeros up to the former length. *)
Lemma read_cplx_16_opened bytes data :
  let num_elem := (List.length bytes / sizeof_cplx16)%nat in
  read_cplx_16 (Some bytes) data =
  (samples_of_bytes num_elem bytes
     ++ repeat (0, 0) (List.length data - num_elem),
   N.of_nat num_elem).
Proof.
  intros num_elem. unfold read_cplx_16. fold num_elem.
  pose proof (samples_of_bytes_length _ _ (samples_fit bytes)) as Hs.
  fold num_elem in Hs.
  set (data1 := if (List.length data <? num_elem)%nat
                then data ++ repeat (0, 0) (num_elem - List.length data)
                else data).
  assert (H1 : List.length data1 = Nat.max (List.length data) num_elem).
  { unfold data1. destruct (Nat.ltb_spec (List.length data) num_elem).
    - rewrite length_app, repeat_length. lia.
    - lia. }
  f_equal. rewrite firstn_app, Hs, Nat.sub_diag, firstn_O, app_nil_r.
  rewrite firstn_all2 by lia.
  rewrite length_app, Hs, length_skipn, H1. f_equal. f_equal. lia.
Qed.

(** Read into an empty vector, the vector has as many samples as the
    function counts. *)
Lemma read_cplx_16_empty file l n :
  read_cplx_16 file [] = (l, n) -> N.of_nat (List.length l) = n.
Proof.
  destruct file as [bytes|]; [|now intros [= <- <-]].
  rewrite read_cplx_16_opened. intros H.
  pose proof (f_equal fst H) as Hl. pose proof (f_equal snd H) as Hn.
  cbn [fst snd] in Hl, Hn. subst l n.
  rewrite length_app, repeat_length.
  rewrite samples_of_bytes_length by apply samples_fit.
  cbn [List.length]. f_equal. lia.
Qed.

(** X15. The error message for a waveform file without any sample is
    never printed: a file that gives no sample has been reported as
    unreadable before, and the run has ended there.  (The waveform file
    is one with which [read_cplx_16] does not take the first element of
    an empty vector.) *)
Theorem zero_samples_error_is_unreachable pl vm h radio n_samples :
  takes_front_of_empty (files h (vm_tx_waveform_file vm)) [] = false ->
  ~ In (Print cerr (File_contains n_samples)) (fst (main pl vm h radio)).
Proof.
  intros _ Hin.
  run_main pl vm h radio; in_trace Hin; bool_facts.
  all: apply read_cplx_16_empty in Hrun0; congruence.
Qed.

Lemma zero_samples_error_is_unreachable_witness :
  ~ In (Print cerr (File_contains 2048))
       (fst (main glibc_x86_64
               (example_vm "host" (of_Z 10) Double.zero)
               (example_host 1700000000500000000 2048)
               silent_radio)).
Proof.
  exact (zero_samples_error_is_unreachable glibc_x86_64
           (example_vm "host" (of_Z 10) Double.zero)
           (example_host 1700000000500000000 2048)
           silent_radio 2048 eq_refl).
Defined.

(** ** Writing a waveform and reading it back *)

Lemma to_N_byte_of_Z z : Z.of_N (Byte.to_N (byte_of_Z z)) = z mod 256.
Proof.
  unfold byte_of_Z.
  pose proof (Z.mod_pos_bound z 256 ltac:(lia)) as Hm.
  destruct (Byte.of_N (Z.to_N (z mod 256))) as [b|] eqn:Hb.
  - apply Byte.to_of_N in Hb. rewrite Hb. apply Z2N.id. lia.
  - apply Byte.of_N_None_iff in Hb. lia.
Qed.

Lemma int16_of_bytes_of_int16 x :
  int16 x -> int16_of_bytes (byte_of_Z x) (byte_of_Z (x / 256)) = x.
Proof.
  unfold int16, int16_of_bytes. intros Hx. rewrite !to_N_byte_of_Z.
  pose proof (Z.div_mod x 256 ltac:(lia)) as Hd.
  pose proof (Z.mod_pos_bound x 256 ltac:(lia)) as Hm.
  assert (Hq : - 128 <= x / 256 <= 127) by lia.
  destruct (Z.le_gt_cases 0 (x / 256)) as [Hpos|Hneg].
  - rewrite (Z.mod_small (x / 256)) by lia.
    destruct (Z.ltb_spec (x mod 256 + 256 * (x / 256)) 32768); lia.
  - assert (Hw : (x / 256) mod 256 = x / 256 + 256).
    { symmetry. apply Z.mod_unique with (q := -1); lia. }
    rewrite Hw.
    destruct (Z.ltb_spec (x mod 256 + 256 * (x / 256 + 256)) 32768); lia.
Qed.

Lemma bytes_of_samples_length data :
  List.length (bytes_of_samples data) = (sizeof_cplx16 * List.length data)%nat.
Proof.
  unfold sizeof_cplx16. induction data as [|[re im] data IH]; [reflexivity|].
  cbn [bytes_of_samples bytes_of_int16 app List.length]. rewrite IH. lia.
Qed.

Lemma samples_of_written_bytes data rest :
  Forall is_cplx16 data ->
  samples_of_bytes (List.length data) (bytes_of_samples data ++ rest) = data.
Proof.
  induction 1 as [|[re im] data [Hre Him] _ IH]; [reflexivity|].
  cbn [bytes_of_samples bytes_of_int16 app List.length samples_of_bytes].
  cbn [fst snd] in Hre, Him.
  rewrite !int16_of_bytes_of_int16, IH by assumption. reflexivity.
Qed.

(** X16. A waveform that is written is read back as it was: for a
    vector that is not empty, [write_cplx_16] gives a file of four bytes
    for each sample and returns the number of samples; and
    [read_cplx_16] of that file, even with up to three more bytes at
    its end, returns the same number and leaves in any vector the
    samples that were written, followed by zeros when the vector was
    longer: nothing of its former contents remains. *)
Theorem written_waveform_is_read_back data data0 extra :
  data <> [] ->
  Forall is_cplx16 data ->
  (List.length extra < sizeof_cplx16)%nat ->
  exists bytes,
    write_cplx_16 true data = Returned (Some bytes, N.of_nat (List.length data)) /\
    List.length bytes = (sizeof_cplx16 * List.length data)%nat /\
    read_cplx_16 (Some (bytes ++ extra)) data0 =
    (data ++ repeat (0, 0) (List.length data0 - List.length data),
     N.of_nat (List.length data)).
Proof.
  intros Hne Hdata Hextra. exists (bytes_of_samples data).
  pose proof (bytes_of_samples_length data) as Hlen.
  assert (Hnum : forall rest, (List.length rest < sizeof_cplx16)%nat ->
            (List.length (bytes_of_samples data ++ rest) / sizeof_cplx16)%nat
            = List.length data).
  { intros rest Hrest. rewrite length_app, Hlen. unfold sizeof_cplx16 in *.
    symmetry. apply Nat.div_unique with (r := List.length rest); lia. }
  split; [|split; [assumption|]].
  - pose proof (Hnum [] ltac:(unfold sizeof_cplx16; cbn [List.length]; lia))
      as Hnum0.
    rewrite app_nil_r in Hnum0.
    unfold write_cplx_16. destruct data as [|s data]; [contradiction|].
    cbv zeta. rewrite Hnum0. reflexivity.
  - rewrite read_cplx_16_opened. cbv zeta. rewrite (Hnum extra Hextra).
    rewrite samples_of_written_bytes by assumption. reflexivity.
Qed.

Lemma written_waveform_is_read_back_witness :
  exists bytes,
    write_cplx_16 true [(1, -2); (-32768, 32767)] = Returned (Some bytes, 2%N) /\
    List.length bytes = 8%nat /\
    read_cplx_16 (Some (bytes ++ [Byte.x07])) [(5, 5); (6, 6); (7, 7)] =
    ([(1, -2); (-32768, 32767); (0, 0)], 2%N).
Proof.
  apply (written_waveform_is_read_back
           [(1, -2); (-32768, 32767)] [(5, 5); (6, 6); (7, 7)] [Byte.x07]).
  - discriminate.
  - repeat constructor; cbn; lia.
  - unfold sizeof_cplx16. cbn. lia.
Defined.

(** ** The period check *)

Lemma binary_round_aux_cases sx mx ex lx :
  let x := binary_round_aux prec emax sx mx ex lx in
  x = S754_zero sx \/ x = S754_infinity sx \/ x = S754_nan \/
  exists m e, x = S754_finite sx m e.
Proof.
  unfold binary_round_aux.
  destruct (shr_fexp prec emax mx ex lx) as [mrs' e'].
  destruct (shr_fexp prec emax _ e' loc_Exact) as [mrs'' e''].
  destruct (shr_m mrs'') as [|q|q]; auto.
  destruct (e'' <=? emax - prec); eauto 6.
Qed.

(** The double of a count is not negative. *)
Lemma of_N_cases n :
  of_N n = S754_zero false \/ of_N n = S754_infinity false \/
  of_N n = S754_nan \/ exists m e, of_N n = S754_finite false m e.
Proof.
  unfold of_N, of_Z, binary_normalize.
  destruct (Z.of_N n) as [|p|p] eqn:Hn; [auto| |lia].
  unfold binary_round.
  destruct (shl_align p 0 _) as [mz ez].
  apply binary_round_aux_cases.
Qed.

(** A count divided by [-1] is not above a positive period. *)
Lemma negated_count_not_above n pri_sec :
  Double.gtb pri_sec Double.zero = true ->
  Double.gtb (Double.div (of_N n) (of_Z (-1))) pri_sec = false.
Proof.
  intros Hp. apply gtb_zero_cases in Hp.
  assert (Hm : of_Z (-1) = S754_finite true 4503599627370496 (-52))
    by (vm_compute; reflexivity).
  rewrite Hm. unfold Double.gtb, Double.div.
  destruct (of_N_cases n) as [->|[->|[->|[m [e ->]]]]];
    destruct Hp as [->|[mp [ep ->]]]; try reflexivity.
  all: unfold SFdiv;
    destruct (SFdiv_core_binary prec emax (Zpos m) e 4503599627370496 (-52))
      as [[mz ez] lz];
    destruct (binary_round_aux_cases (xorb false true) mz ez lz)
      as [->|[->|[->|[m' [e' ->]]]]]; reflexivity.
Qed.

(** X17. The period check ends a run only for a sample rate that the
    radio has reported: the message carries the period and the length
    of the waveform divided by that rate, which is above the positive
    period, and the status is 1.  When the radio does not report its
    rate, the value [-1] stands for it and the check passes, whatever
    the period. *)
Theorem period_check pl vm h radio waveform_duration pri_sec :
  In (Print cerr (Waveform_longer_than_pri waveform_duration pri_sec))
     (fst (main pl vm h radio)) ->
  exists tx_rate,
    get_tx_rate radio 0 = Some tx_rate /\
    waveform_duration = Double.div (of_N (waveform_length vm h)) tx_rate /\
    pri_sec = vm_pri vm /\
    Double.gtb pri_sec Double.zero = true /\
    Double.gtb waveform_duration pri_sec = true /\
    snd (main pl vm h radio) = Status 1.
Proof.
  intros Hin.
  run_main pl vm h radio; in_trace Hin.
  all: injection Hin as <- <-.
  all: apply andb_true_iff in Hc3; destruct Hc3 as [Hp Hd].
  all: destruct (get_tx_rate radio 0) as [tx_rate|] eqn:Hrate; cbn [value_or] in *;
    [|rewrite (negated_count_not_above _ _ Hp) in Hd; discriminate Hd].
  all: exists tx_rate; auto 7.
Qed.

Lemma period_check_witness :
  exists tx_rate,
    get_tx_rate (example_radio None 16384 512 1700000002000000001 all_accepted) 0
      = Some tx_rate /\
    Double.div (of_Z 2048) (of_Z 1000000) =
      Double.div
        (of_N (waveform_length
                 (example_vm "host" (of_Z 10) (Double.div (of_Z 1) (of_Z 1000)))
                 (example_host 1700000000500000000 2048)))
        tx_rate /\
    Double.div (of_Z 1) (of_Z 1000) =
      vm_pri (example_vm "host" (of_Z 10) (Double.div (of_Z 1) (of_Z 1000))) /\
    Double.gtb (Double.div (of_Z 1) (of_Z 1000)) Double.zero = true /\
    Double.gtb (Double.div (of_Z 2048) (of_Z 1000000))
               (Double.div (of_Z 1) (of_Z 1000)) = true /\
    snd (main glibc_x86_64
           (example_vm "host" (of_Z 10) (Double.div (of_Z 1) (of_Z 1000)))
           (example_host 1700000000500000000 2048)
           (example_radio None 16384 512 1700000002000000001 all_accepted))
    = Status 1.
Proof.
  apply (period_check glibc_x86_64
           (example_vm "host" (of_Z 10) (Double.div (of_Z 1) (of_Z 1000)))
           (example_host 1700000000500000000 2048)
           (example_radio None 16384 512 1700000002000000001 all_accepted)).
  vm_compute. in_solve.
Defined.

(** ** Failures after the settings *)

(** X18. When the radio refuses the loop command, the run ends at once
    with the message for it and status 1: the program does not sleep,
    and the waveform it has uploaded stays in the radio. *)
Theorem refused_loop_command pl vm h radio :
  In (Print cerr Tx_loop_failed) (fst (main pl vm h radio)) ->
  exists t_start pri n_pulses,
    tx_loop radio t_start (waveform_length vm h) pri n_pulses = false /\
    ends_in (fst (main pl vm h radio))
      [Call (Tx_loop t_start (waveform_length vm h) pri n_pulses);
       Print cerr Tx_loop_failed] /\
    uploads (fst (main pl vm h radio)) =
      [Call (Put_tx_data (waveform vm h));
       Call (Tx_loop t_start (waveform_length vm h) pri n_pulses)] /\
    snd (main pl vm h radio) = Status 1.
Proof.
  intros Hin.
  run_main pl vm h radio; in_trace Hin; options_facts; bool_facts.
  all: do 3 eexists.
  all: split; [eassumption|].
  all: split; [ends_in_solve|].
  all: split; [uploads_solve; reflexivity|reflexivity].
Qed.

Lemma refused_loop_command_witness :
  snd (main glibc_x86_64
         (example_vm "host" (of_Z 10) Double.zero)
         (example_host 1700000000500000000 2048)
         (loop_refused
            (example_radio None 16384 512 1700000002000000001 all_accepted)))
  = Status 1.
Proof.
  destruct (refused_loop_command glibc_x86_64
              (example_vm "host" (of_Z 10) Double.zero)
              (example_host 1700000000500000000 2048)
              (loop_refused
                 (example_radio None 16384 512 1700000002000000001 all_accepted)))
    as [t_start [pri [n_pulses [_ [_ [_ Hs]]]]]].
  - vm_compute. in_solve.
  - exact Hs.
Defined.

(** X19. For a run that starts from the parsed options, with a
    waveform file that is absent or a regular file held in memory, and
    exceptions of the radio library apart: an exception is caught and
    reported as the last event of the run, which ends with status 3
    without any upload or loop command.  It is the [std::out_of_range]
    of [stod] for a number of an I/Q option, that of [at] for a buffer
    description of fewer than two entries or a [hello] answer of fewer
    than six, with the text of the library for the index and the size,
    or the [std::bad_optional_access] of the second reading of the
    radio clock. *)
Theorem exception_ends_the_run pl vm h radio w :
  In (Print cerr (Exception_caught w)) (fst (main pl vm h radio)) ->
  snd (main pl vm h radio) = Status 3 /\
  ends_in (fst (main pl vm h radio)) [Print cerr (Exception_caught w)] /\
  uploads (fst (main pl vm h radio)) = [] /\
  (w = "stod"%string \/
   (exists v, get_buffer_info radio = Some v /\ (List.length v < 2)%nat /\
      w = range_check_what pl 1 (List.length v)) \/
   (exists v, hello radio = Some v /\ (List.length v < 6)%nat /\
      w = range_check_what pl 5 (List.length v)) \/
   (w = "bad optional access"%string /\ get_time_now radio 1 = None)).
Proof.
  intros Hin.
  run_main pl vm h radio; in_trace Hin; options_ended; options_facts.
  all: injection Hin as <-.
  all: split; [reflexivity|].
  all: split; [ends_in_solve|].
  all: split; [uploads_solve; reflexivity|].
  all: first
    [ left; reflexivity
    | right; right; right; split; reflexivity
    | match goal with
      | H : nth_error ?v 1 = None |- _ =>
          right; left; exists v; split; [reflexivity|];
          split; [apply nth_error_None in H; lia|reflexivity]
      | H : nth_error ?v 5 = None |- _ =>
          right; right; left; exists v; split; [reflexivity|];
          split; [apply nth_error_None in H; lia|reflexivity]
      end ].
Qed.

(** A radio whose answer to [hello] has one entry. *)
Lemma exception_ends_the_run_witness :
  snd (main glibc_x86_64
         (example_vm "host" (of_Z 10) Double.zero)
         (example_host 1700000000500000000 2048)
         (example_radio (Some [0%N]) 16384 512 1700000002000000001 all_accepted))
  = Status 3 /\
  uploads (fst (main glibc_x86_64
         (example_vm "host" (of_Z 10) Double.zero)
         (example_host 1700000000500000000 2048)
         (example_radio (Some [0%N]) 16384 512 1700000002000000001 all_accepted)))
  = [].
Proof.
  destruct (exception_ends_the_run glibc_x86_64
              (example_vm "host" (of_Z 10) Double.zero)
              (example_host 1700000000500000000 2048)
              (example_radio (Some [0%N]) 16384 512 1700000002000000001 all_accepted)
              "vector::_M_range_check: __n (which is 5) >= this->size() (which is 1)")
    as [Hs [_ [Hu _]]].
  - vm_compute. in_solve.
  - split; assumption.
Defined.

(** ** The text of a time *)

Lemma fixed_digits_zero k : fixed_digits k 0 = fill "0" k.
Proof.
  induction k as [|k IH]; [reflexivity|].
  cbn [fixed_digits]. rewrite Zdiv_0_l, IH.
  change (digit_char (0 mod 10)) with "0"%char.
  clear IH. induction k as [|k IH]; [reflexivity|].
  cbn [fill append]. now rewrite IH.
Qed.

Lemma fill_length c n : String.length (fill c n) = n.
Proof. induction n as [|n IH]; [reflexivity|]. cbn. now rewrite IH. Qed.

(** The digits of a number below [10^k] are its [k] low digits without
    the zeros at their head. *)
Lemma decimal_digits_fixed k :
  forall fuel n acc,
    0 <= n < 10 ^ Z.of_nat (S k) -> (S k <= fuel)%nat ->
    exists j,
      (fixed_digits (S k) n ++ acc)%string
      = (fill "0" j ++ decimal_digits fuel n acc)%string.
Proof.
  induction k as [|k IH]; intros fuel n acc Hn Hfuel.
  - destruct fuel as [|fuel]; [lia|]. exists 0%nat.
    cbn [fixed_digits decimal_digits fill append].
    rewrite (Z.div_small n 10) by (change (10 ^ Z.of_nat 1) with 10 in Hn; lia).
    reflexivity.
  - destruct fuel as [|fuel]; [lia|].
    change (fixed_digits (S (S k)) n)
      with (fixed_digits (S k) (n / 10)
            ++ String (digit_char (n mod 10)) EmptyString)%string.
    rewrite append_assoc. cbn [append decimal_digits].
    destruct (Z.eqb_spec (n / 10) 0) as [Hz|Hnz].
    + rewrite Hz, fixed_digits_zero. exists (S k). reflexivity.
    + apply IH; [|lia].
      rewrite Nat2Z.inj_succ, Z.pow_succ_r in Hn by lia.
      split; [apply Z.div_pos; lia|].
      apply Z.div_lt_upper_bound; lia.
Qed.

Lemma setfill_setw_fill c w j (s : string) :
  (j + String.length s = w)%nat ->
  setfill_setw c w s = (fill c j ++ s)%string.
Proof.
  intros H. unfold setfill_setw.
  replace (w - String.length s)%nat with j by lia. reflexivity.
Qed.

Lemma fixed_digits_length k n : String.length (fixed_digits k n) = k.
Proof.
  revert n. induction k as [|k IH]; intros n; [reflexivity|].
  cbn [fixed_digits]. rewrite length_append, IH. cbn. lia.
Qed.

Lemma to_int32_small z : - 2 ^ 31 <= z < 2 ^ 31 -> to_int32 z = z.
Proof.
  intros Hz. unfold to_int32.
  destruct (Z.le_gt_cases 0 z) as [Hpos|Hneg].
  - rewrite Z.mod_small by lia.
    destruct (Z.ltb_spec z (2 ^ 31)); lia.
  - assert (Hm : z mod 2 ^ 32 = z + 2 ^ 32)
      by (symmetry; apply Z.mod_unique with (q := -1); lia).
    rewrite Hm. destruct (Z.ltb_spec (z + 2 ^ 32) (2 ^ 31)); lia.
Qed.

(** X20. For a time since the epoch, the text is that of the whole
    seconds of the time, a point, and the nanoseconds of the time
    within its second written with exactly nine digits. *)
Theorem format_time_since_epoch put_time t fmt :
  0 <= t ->
  format_time put_time t fmt =
  (put_time (t / ns_per_s) (c_str fmt)
   ++ "." ++ fixed_digits 9 (t mod ns_per_s))%string.
Proof.
  intros Ht. unfold format_time, duration_cast_s, s_to_ns.
  rewrite Z.quot_div_nonneg by (unfold ns_per_s; lia).
  pose proof (Z.div_mod t ns_per_s ltac:(discriminate)) as Hdm.
  pose proof (Z.mod_pos_bound t ns_per_s ltac:(reflexivity)) as Hr.
  replace (t - t / ns_per_s * ns_per_s) with (t mod ns_per_s) by lia.
  set (ns := t mod ns_per_s) in *. unfold ns_per_s in Hr.
  rewrite to_int32_small by lia.
  unfold insert_int. destruct (Z.ltb_spec ns 0) as [Hneg|_]; [lia|].
  destruct (decimal_digits_fixed 8 10 ns EmptyString) as [j Hj];
    [change (10 ^ Z.of_nat 9) with 1000000000; lia|lia|].
  rewrite (setfill_setw_fill _ _ j).
  - rewrite <- Hj.
    assert (Hnil : forall s : string, (s ++ EmptyString)%string = s)
      by (induction s as [|c s IH]; cbn; [|rewrite IH]; reflexivity).
    now rewrite Hnil.
  - apply (f_equal String.length) in Hj.
    rewrite !length_append, fixed_digits_length, fill_length in Hj.
    cbn [String.length] in Hj. lia.
Qed.

Lemma format_time_since_epoch_witness :
  format_time (fun n _ => insert_int n) 1700000002000000001 "%s" =
  ("1700000002" ++ "." ++ "000000001")%string.
Proof.
  exact (format_time_since_epoch (fun n _ => insert_int n)
           1700000002000000001 "%s" ltac:(discriminate)).
Defined.

Lemma occurs_append c (a b : string) :
  occurs c (a ++ b) = occurs c a || occurs c b.
Proof.
  induction a as [|x a IH]; [reflexivity|].
  cbn [append occurs]. rewrite IH. now destruct (ascii_eqb x c).
Qed.

(** X21. For a time before the epoch that is not on a whole second, the
    seconds of the text are those of the time rounded up, a second
    later than the second the time lies in, and the text after the
    point holds a minus sign. *)
Theorem format_time_before_epoch put_time t fmt :
  t < 0 ->
  t mod ns_per_s <> 0 ->
  exists fraction,
    format_time put_time t fmt =
    (put_time (t / ns_per_s + 1) (c_str fmt) ++ "." ++ fraction)%string /\
    occurs "-" fraction = true.
Proof.
  intros Ht Hr. unfold format_time.
  pose proof (Z.div_mod t ns_per_s ltac:(discriminate)) as Hdm.
  pose proof (Z.mod_pos_bound t ns_per_s ltac:(reflexivity)) as Hm.
  assert (Hq : duration_cast_s t = t / ns_per_s + 1).
  { unfold duration_cast_s. rewrite <- (Z.opp_involutive t) at 1.
    rewrite Z.quot_opp_l, Z.quot_div_nonneg by (unfold ns_per_s; lia).
    assert (Hd : - t / ns_per_s = - (t / ns_per_s) - 1).
    { symmetry. apply Z.div_unique with (r := ns_per_s - t mod ns_per_s);
        unfold ns_per_s in *; lia. }
    lia. }
  rewrite Hq.
  set (ns := t - s_to_ns (t / ns_per_s + 1)).
  assert (Hns : - ns_per_s < ns < 0) by (unfold ns, s_to_ns, ns_per_s in *; lia).
  rewrite to_int32_small by (unfold ns_per_s in Hns; lia).
  eexists. split; [reflexivity|].
  unfold setfill_setw, insert_int.
  destruct (Z.ltb_spec ns 0) as [_|Hge]; [|lia].
  rewrite occurs_append. cbn [occurs]. unfold ascii_eqb.
  rewrite Ascii.eqb_refl. apply orb_true_r.
Qed.

Lemma format_time_before_epoch_witness :
  exists fraction,
    format_time (fun n _ => insert_int n) (-1) "%s" =
    (insert_int (-1 / ns_per_s + 1) ++ "." ++ fraction)%string /\
    occurs "-" fraction = true.
Proof.
  apply (format_time_before_epoch (fun n _ => insert_int n) (-1) "%s");
    [reflexivity|discriminate].
Defined.

(** ** Worked examples of the upload and of the loop command *)

Lemma incomplete_upload_still_loops_witness :
  put_tx_data
    (example_radio (Some [0; 0; 0; 0; 0; 7]%N) 16384 512
                   1700000002000000001 (fun _ => 2047%N))
    (waveform (example_vm "host" (of_Z 10) Double.zero)
              (example_host 1700000000500000000 2048))
  <> waveform_length (example_vm "host" (of_Z 10) Double.zero)
                     (example_host 1700000000500000000 2048).
Proof.
  destruct (incomplete_upload_still_loops glibc_x86_64
              (example_vm "host" (of_Z 10) Double.zero)
              (example_host 1700000000500000000 2048)
              (example_radio (Some [0; 0; 0; 0; 0; 7]%N) 16384 512
                             1700000002000000001 (fun _ => 2047%N)))
    as [Hne _].
  - vm_compute. in_solve.
  - exact Hne.
Defined.

Lemma loop_command_arguments_witness :
  2048%N = waveform_length (example_vm "host" (of_Z 10) (of_Z 1))
                           (example_host 1700000000500000000 2048) /\
  1000000000 = llround (llround_invalid glibc_x86_64)
                 (Double.mul (of_Z 1000000000)
                    (vm_pri (example_vm "host" (of_Z 10) (of_Z 1)))) /\
  10%N = find_n_pulses glibc_x86_64
           (vm_duration (example_vm "host" (of_Z 10) (of_Z 1)))
           (vm_pri (example_vm "host" (of_Z 10) (of_Z 1))) /\
  Double.leb (vm_duration (example_vm "host" (of_Z 10) (of_Z 1))) Double.zero
  = false /\
  Double.ltb (vm_pri (example_vm "host" (of_Z 10) (of_Z 1))) Double.zero
  = false.
Proof.
  apply (loop_command_arguments glibc_x86_64
           (example_vm "host" (of_Z 10) (of_Z 1))
           (example_host 1700000000500000000 2048)
           (example_radio (Some [0; 0; 0; 0; 0; 7]%N) 16384 512
                          1700000002000000001 all_accepted)
           1700000004000000000).
  vm_compute. in_solve.
Defined.
